(** * PATH scanner of Dev-Janitor: a shallow embedding and its properties

    The development follows the PATH Scanner module
    ([parsePath], [isExecutable], [scanDirectory], [scanAllPathDirectories],
    [identifyInstallMethod], [generateUninstallInstructions],
    [getExtendedToolInfo]).

    Conventions of the embedding.
    - A JavaScript string is a [string]: a sequence of code units below 256
      (the Latin-1 range, which contains ASCII).  [toLowerCase] and [trim]
      are given for that range; code units above it are outside the model.
    - A promise that may reject, and a call that may throw, is a value of
      [Exc]: either [Return v] or [Throw e].
    - Everything the module imports (Node's [path] and [fs], the
      [commandExecutor] and [detectionEngine] modules, [process.env] and
      [process.platform]) is a field of the record [Host]; the file system
      is read through it and does not change during one call. *)

From Stdlib Require Import String Ascii NArith ZArith Bool Lia.
From stdpp Require Import gmap strings list.

Local Open Scope string_scope.
Local Open Scope list_scope.

(** ** JavaScript string operations *)

Module Js.

(** [String.prototype.toLowerCase] on one code unit: A-Z and the
    Latin-1 capitals U+00C0..U+00DE (except the sign U+00D7) move up by 32. *)
Definition lowerUnit (c : ascii) : ascii :=
  let n := N_of_ascii c in
  if ((65 <=? n) && (n <=? 90) ||
      (192 <=? n) && (n <=? 222) && negb (n =? 215))%N
  then ascii_of_N (n + 32) else c.

Fixpoint toLowerCase (s : string) : string :=
  match s with
  | EmptyString => EmptyString
  | String c r => String (lowerUnit c) (toLowerCase r)
  end.

(** [s.startsWith(sub)]. *)
Fixpoint startsWith (s sub : string) {struct sub} : bool :=
  match sub, s with
  | EmptyString, _ => true
  | String _ _, EmptyString => false
  | String b sub', String a s' => if Ascii.eqb a b then startsWith s' sub' else false
  end.

(** [s.includes(sub)]: [sub] occurs at some position of [s]. *)
Fixpoint includes (s sub : string) : bool :=
  if startsWith s sub then true
  else match s with
       | EmptyString => false
       | String _ r => includes r sub
       end.

(** White space and line terminators removed by [trim], below U+0100:
    TAB, LF, VT, FF, CR, SPACE and NO-BREAK SPACE. *)
Definition isWhiteSpace (c : ascii) : bool :=
  let n := N_of_ascii c in
  ((9 <=? n) && (n <=? 13) || (n =? 32) || (n =? 160))%N.

Fixpoint trimStart (s : string) : string :=
  match s with
  | EmptyString => EmptyString
  | String c r => if isWhiteSpace c then trimStart r else s
  end.

Fixpoint trimEnd (s : string) : string :=
  match s with
  | EmptyString => EmptyString
  | String c r =>
      match trimEnd r with
      | EmptyString => if isWhiteSpace c then EmptyString else String c EmptyString
      | r' => String c r'
      end
  end.

Definition trim (s : string) : string := trimEnd (trimStart s).

(** [s.split(sep)] for a separator of one code unit: the pieces between
    the occurrences of [sep]; the empty string gives one empty piece. *)
Fixpoint split (sep : ascii) (s : string) : list string :=
  match s with
  | EmptyString => [EmptyString]
  | String c r =>
      if Ascii.eqb c sep then EmptyString :: split sep r
      else match split sep r with
           | piece :: pieces => String c piece :: pieces
           | [] => [String c EmptyString]
           end
  end.

(** [pieces.join(sep)], the inverse reading of [split]. *)
Fixpoint join (sep : ascii) (pieces : list string) : string :=
  match pieces with
  | [] => EmptyString
  | [piece] => piece
  | piece :: rest => piece +:+ String sep (join sep rest)
  end.

(** Truthiness of a string: only the empty string is falsy. *)
Definition truthy (s : string) : bool :=
  match s with EmptyString => false | String _ _ => true end.

(** [s.length > 0]. *)
Definition nonEmpty (s : string) : bool := truthy s.

(** A string is blank when all its code units are white space. *)
Fixpoint isBlank (s : string) : bool :=
  match s with
  | EmptyString => true
  | String c r => isWhiteSpace c && isBlank r
  end.

(** [sep] occurs in [s]. *)
Fixpoint hasUnit (sep : ascii) (s : string) : bool :=
  match s with
  | EmptyString => false
  | String c r => Ascii.eqb c sep || hasUnit sep r
  end.

End Js.

(** ** Exceptions and rejected promises *)

(** The errors [fs] reports; which one is raised never matters to the
    scanner, every handler being a bare [catch]. *)
Inductive FsError : Type := ENOENT | EACCES | ENOTDIR | ELOOP | EIO.

Inductive Exc (A : Type) : Type :=
| Return (a : A)
| Throw (e : FsError).
Arguments Return {A} a.
Arguments Throw {A} e.

Definition bindExc {A B} (m : Exc A) (k : A -> Exc B) : Exc B :=
  match m with
  | Return a => k a
  | Throw e => Throw e
  end.

(** [try { m } catch { h }]. *)
Definition tryCatch {A} (m : Exc A) (h : FsError -> Exc A) : Exc A :=
  match m with
  | Return a => Return a
  | Throw e => h e
  end.

Declare Scope exc_scope.
Delimit Scope exc_scope with exc.
Notation "x <- m ;; k" := (bindExc m (fun x => k))
  (at level 100, m at next level, right associativity) : exc_scope.

(** [await Promise.all(xs.map(f))]: all results in the order of [xs], or
    the rejection of the first element that rejects. *)
Fixpoint promiseAll {A B} (f : A -> Exc B) (xs : list A) : Exc (list B) :=
  match xs with
  | [] => Return []
  | x :: rest =>
      (y <- f x ;;
       ys <- promiseAll f rest ;;
       Return (y :: ys))%exc
  end.

(** ** Data model *)

(** [ToolInfo['installMethod']]: the six tags the scanner produces.  The
    declaration lives in [shared/types]; [other] stands for any further
    value a caller may pass, none of which the scanner's [switch] names. *)
Inductive InstallMethod : Type :=
| homebrew | chocolatey | apt | npm | pip | manual
| other (tag : string).

Module ExecutableInfo.
Record t : Type := mk { name : string; path : string; directory : string }.
End ExecutableInfo.

Module ExtendedToolInfo.
Record t : Type := mk {
  name : string;
  displayName : string;
  version : option string;
  path : option string;
  isInstalled : bool;
  installMethod : InstallMethod;
  category : string;
  allPaths : list string;
  uninstallInstructions : list string
}.
End ExtendedToolInfo.

(** [fs.Stats], as far as the scanner reads it. *)
Record Stats : Type := { isFile : bool; mode : Z }.

(** The result of [executeSafe]. *)
Record CommandResult : Type :=
  { success : bool; stdout : option string; stderr : option string }.

(** Everything the module reads from outside itself. *)
Record Host : Type := {
  isWindows : bool;                          (* commandExecutor.isWindows() *)
  platform : string;                         (* process.platform *)
  env_PATH : option string;                  (* process.env.PATH *)
  env_Path : option string;                  (* process.env.Path *)
  path_extname : string -> string;           (* path.extname *)
  path_basename : string -> string -> string;(* path.basename(p, ext) *)
  path_join : string -> string -> string;    (* path.join(a, b) *)
  fs_stat : string -> Exc Stats;             (* fsPromises.stat *)
  fs_access : string -> Exc unit;            (* fsPromises.access *)
  fs_readdir : string -> Exc (list string);  (* fsPromises.readdir *)
  normalizePath : string -> string;
  getAllToolPaths : string -> list string;
  executeSafe : string -> CommandResult;
  parseVersion : string -> option string
}.

(** [fs.constants]. *)
Definition S_IXUSR : Z := 64.
Definition S_IXGRP : Z := 8.
Definition S_IXOTH : Z := 1.

(** [xs.includes(x)] on an array of strings. *)
Definition arrayIncludes (xs : list string) (x : string) : bool :=
  existsb (String.eqb x) xs.

(** [a || b] on possibly undefined strings, with a string default. *)
Definition orElse (a : option string) (b : string) : string :=
  match a with
  | Some s => if Js.truthy s then s else b
  | None => b
  end.

(** ** The scanner *)

Section Scanner.

Variable h : Host.

Definition getPathSeparator : ascii :=
  if isWindows h then ";"%char else ":"%char.

Definition parsePath : list string :=
  let pathEnv := orElse (env_PATH h) (orElse (env_Path h) "") in
  let separator := getPathSeparator in
  map (normalizePath h)
    (List.filter Js.nonEmpty
       (map Js.trim (Js.split separator pathEnv))).

(** [o && o.trim()] as a condition. *)
Definition hasText (o : option string) : bool :=
  match o with
  | Some s => Js.truthy s && Js.truthy (Js.trim s)
  | None => false
  end.

Definition getVersionOutput (result : CommandResult) : string :=
  if hasText (stdout result) then default "" (stdout result)
  else if hasText (stderr result) then default "" (stderr result)
  else "".

Definition executableExtensions : list string :=
  [".exe"; ".cmd"; ".bat"; ".com"; ".ps1"].

Definition isExecutable (filePath : string) : Exc bool :=
  tryCatch
    (stats <- fs_stat h filePath ;;
     if negb (isFile stats) then Return false
     else if isWindows h then
       let ext := Js.toLowerCase (path_extname h filePath) in
       Return (arrayIncludes executableExtensions ext)
     else
       let mode := mode stats in
       Return (negb (Z.land mode S_IXUSR =? 0)%Z ||
               negb (Z.land mode S_IXGRP =? 0)%Z ||
               negb (Z.land mode S_IXOTH =? 0)%Z))%exc
    (fun _ => Return false).

(** One element of [checks]: [{ file, filePath, isExec }]. *)
Definition checkFile (directory file : string) : Exc (string * string * bool) :=
  (let filePath := path_join h directory file in
   isExec <- isExecutable filePath ;;
   Return (file, filePath, isExec))%exc.

(** One turn of the [for ... of checks] loop on the array [executables]. *)
Definition pushExecutable (directory : string)
    (executables : list ExecutableInfo.t) (check : string * string * bool)
  : list ExecutableInfo.t :=
  let '(file, filePath, isExec) := check in
  if isExec then
    let name :=
      if isWindows h then
        let ext := Js.toLowerCase (path_extname h file) in
        if arrayIncludes executableExtensions ext
        then path_basename h file ext else file
      else file in
    executables ++
      [ExecutableInfo.mk (Js.toLowerCase name)
         (normalizePath h filePath) (normalizePath h directory)]
  else executables.

(** The outer [try] block after the existence check, run on the array
    [executables]: its outcome and the array as it is left. *)
Definition scanListing (directory : string) (executables : list ExecutableInfo.t)
  : Exc unit * list ExecutableInfo.t :=
  match fs_readdir h directory with
  | Throw e => (Throw e, executables)
  | Return files =>
      match promiseAll (checkFile directory) files with
      | Throw e => (Throw e, executables)
      | Return checks =>
          (Return tt, fold_left (pushExecutable directory) checks executables)
      end
  end.

Definition scanDirectory (directory : string) : Exc (list ExecutableInfo.t) :=
  let executables := [] in
  match fs_access h directory with
  | Throw _ => Return executables
  | Return _ =>
      (* whatever the block's outcome, control reaches [return executables] *)
      let '(_, executables) := scanListing directory executables in
      Return executables
  end.

(** The dedup key: name, a colon, path. *)
Definition execKey (exec : ExecutableInfo.t) : string :=
  ExecutableInfo.name exec +:+ ":" +:+ ExecutableInfo.path exec.

(** One turn of the inner loop on [(seen, allExecutables)]. *)
Definition addExecutable (st : gset string * list ExecutableInfo.t)
    (exec : ExecutableInfo.t) : gset string * list ExecutableInfo.t :=
  let '(seen, allExecutables) := st in
  let key := execKey exec in
  if decide (key ∈ seen) then st
  else ({[key]} ∪ seen, allExecutables ++ [exec]).

(** Both loops over [results]. *)
Definition mergeResults (results : list (list ExecutableInfo.t))
    (st : gset string * list ExecutableInfo.t)
  : gset string * list ExecutableInfo.t :=
  fold_left (fun st executables => fold_left addExecutable executables st)
    results st.

Definition scanAllPathDirectories : Exc (list ExecutableInfo.t) :=
  (let pathDirs := parsePath in
   results <- promiseAll scanDirectory pathDirs ;;
   Return (snd (mergeResults results (∅, []))))%exc.

Definition identifyInstallMethod (toolPath : string) : InstallMethod :=
  if negb (Js.truthy toolPath) then manual
  else
    let lowerPath := Js.toLowerCase toolPath in
    if Js.includes lowerPath "/opt/homebrew" ||
       Js.includes lowerPath "/usr/local/cellar" ||
       Js.includes lowerPath "homebrew" then homebrew
    else if Js.includes lowerPath "chocolatey" ||
            Js.includes lowerPath "choco" then chocolatey
    else if Js.includes lowerPath "/usr/bin" &&
            String.eqb (platform h) "linux" then apt
    else if Js.includes lowerPath "node_modules" ||
            Js.includes lowerPath "npm" then npm
    else if Js.includes lowerPath "site-packages" ||
            Js.includes lowerPath "pip" ||
            Js.includes lowerPath "python" then pip
    else manual.

Definition generateUninstallInstructions
    (toolName : string) (installMethod : InstallMethod) (toolPath : string)
  : list string :=
  let instructions : list string := [] in
  match installMethod with
  | homebrew =>
      instructions
        ++ ["brew uninstall " +:+ toolName]
        ++ ["# Or force uninstall: brew uninstall --force " +:+ toolName]
  | chocolatey =>
      instructions
        ++ ["choco uninstall " +:+ toolName]
        ++ ["# Or force uninstall: choco uninstall " +:+ toolName +:+ " --force"]
  | apt =>
      instructions
        ++ ["sudo apt remove " +:+ toolName]
        ++ ["# Or purge (remove config): sudo apt purge " +:+ toolName]
  | npm =>
      instructions ++ ["npm uninstall -g " +:+ toolName]
  | pip =>
      instructions
        ++ ["pip uninstall " +:+ toolName]
        ++ ["# Or: pip3 uninstall " +:+ toolName]
  | manual | other _ =>
      if Js.truthy toolPath then
        if isWindows h then
          instructions
            ++ ["# Manual removal required"]
            ++ ["# Delete file: " +:+ toolPath]
            ++ ["# Or check Programs and Features in Control Panel"]
        else
          instructions
            ++ ["# Manual removal required"]
            ++ ["sudo rm " +:+ toolPath]
            ++ ["# Or check if installed via system package manager"]
      else
        instructions
          ++ ["# Unable to determine uninstall method"]
          ++ ["# Please check your system's package manager"]
  end.

Definition getExtendedToolInfo (toolName : string) : ExtendedToolInfo.t :=
  let allPaths := getAllToolPaths h toolName in
  let versionResult := executeSafe h (toolName +:+ " --version") in
  let version := parseVersion h (getVersionOutput versionResult) in
  let primaryPath :=
    if (0 <? length allPaths)%nat then head allPaths else None in
  let installMethod := identifyInstallMethod (orElse primaryPath "") in
  let uninstallInstructions :=
    generateUninstallInstructions toolName installMethod (orElse primaryPath "") in
  ExtendedToolInfo.mk toolName toolName version primaryPath
    ((0 <? length allPaths)%nat && success versionResult)
    installMethod "tool" allPaths uninstallInstructions.

End Scanner.

(** ** Vocabulary of the properties *)

Module Provenance.

(** One heuristic rule: the substrings that trigger it, whether it only
    applies on Linux, and the tag it yields. *)
Record Rule : Type :=
  { needles : list string; linuxOnly : bool; yields : InstallMethod }.

Definition homebrewRule : Rule :=
  {| needles := ["/opt/homebrew"; "/usr/local/cellar"; "homebrew"];
     linuxOnly := false; yields := homebrew |}.

Definition laterRules : list Rule :=
  [ {| needles := ["chocolatey"; "choco"]; linuxOnly := false; yields := chocolatey |};
    {| needles := ["/usr/bin"]; linuxOnly := true; yields := apt |};
    {| needles := ["node_modules"; "npm"]; linuxOnly := false; yields := npm |};
    {| needles := ["site-packages"; "pip"; "python"]; linuxOnly := false; yields := pip |} ].

Definition heuristicRules : list Rule := homebrewRule :: laterRules.

(** A rule matches a text when the text contains one of its needles and
    its platform gate is open. *)
Definition ruleMatches (platformId text : string) (r : Rule) : bool :=
  existsb (Js.includes text) (needles r)
  && (negb (linuxOnly r) || String.eqb platformId "linux").

(** First match wins; no match is [manual]. *)
Fixpoint firstMatch (platformId text : string) (rules : list Rule) : InstallMethod :=
  match rules with
  | [] => manual
  | r :: rest =>
      if ruleMatches platformId text r then yields r
      else firstMatch platformId text rest
  end.

(** The heuristic with every rule tested on the lower-cased path. *)
Definition classifyLowered (platformId p : string) : InstallMethod :=
  match p with
  | EmptyString => manual
  | _ => firstMatch platformId (Js.toLowerCase p) heuristicRules
  end.

(** The heuristic read word for word: only the homebrew rule ignores
    case, the later rules look for their needles in the path as given. *)
Definition classifyAsStated (platformId p : string) : InstallMethod :=
  match p with
  | EmptyString => manual
  | _ =>
      if ruleMatches platformId (Js.toLowerCase p) homebrewRule then homebrew
      else firstMatch platformId p laterRules
  end.

End Provenance.

Module VersionText.

(** The probe text read word for word: stdout when it is not the empty
    string, else stderr when it is not the empty string, else empty. *)
Definition asStated (result : CommandResult) : string :=
  match stdout result with
  | Some (String c out) => String c out
  | _ =>
      match stderr result with
      | Some (String c err) => String c err
      | _ => ""
      end
  end.

(** A stream has text when it is present and not blank. *)
Definition present (o : option string) : bool :=
  match o with
  | Some s => negb (Js.isBlank s)
  | None => false
  end.

End VersionText.

(** An environment variable is unset or set to the empty string. *)
Definition unsetOrEmpty (v : option string) : Prop := v = None \/ v = Some "".

(** [value] is what the search-path variable holds: [PATH] when it is
    set and not empty, else [Path] when that one is. *)
Definition searchPathIs (h : Host) (value : string) : Prop :=
  value <> "" /\
  (env_PATH h = Some value \/ (unsetOrEmpty (env_PATH h) /\ env_Path h = Some value)).

(** Some execute bit (owner 0100, group 0010, other 0001) is set. *)
Definition anyExecuteBit (m : Z) : bool :=
  Z.testbit m 6 || Z.testbit m 3 || Z.testbit m 0.

(** The record [scanDirectory] makes for an executable entry [file] of
    [directory]. *)
Definition recordOf (h : Host) (directory file : string) : ExecutableInfo.t :=
  let name :=
    if isWindows h then
      let ext := Js.toLowerCase (path_extname h file) in
      if arrayIncludes executableExtensions ext
      then path_basename h file ext else file
    else file in
  ExecutableInfo.mk (Js.toLowerCase name)
    (normalizePath h (path_join h directory file)) (normalizePath h directory).

Module Dedup.

(** The identity the data model gives a record. *)
Definition namePath (e : ExecutableInfo.t) : string * string :=
  (ExecutableInfo.name e, ExecutableInfo.path e).

(** First occurrence wins: each record is kept unless an earlier record
    has the same key. *)
Fixpoint firstOccurrences (l : list ExecutableInfo.t) : list ExecutableInfo.t :=
  match l with
  | [] => []
  | e :: rest => e :: filter (fun x => execKey x ≠ execKey e) (firstOccurrences rest)
  end.

(** The key tells records with different (name, path) apart on [l]. *)
Definition keyFaithful (l : list ExecutableInfo.t) : Prop :=
  forall a b, a ∈ l -> b ∈ l -> execKey a = execKey b -> namePath a = namePath b.

End Dedup.

(** ** Finding every installation, and detecting a list of tools *)

(** A [Set] of strings, as its membership and its insertion order:
    [set.add(x)]. *)
Definition setAdd (st : gset string * list string) (x : string)
  : gset string * list string :=
  let '(members, order) := st in
  if decide (x ∈ members) then st
  else ({[x]} ∪ members, order ++ [x]).

(** [[...new Set(xs)]]: the values of [xs] in order of first insertion. *)
Definition spreadSet (xs : list string) : list string :=
  snd (fold_left setAdd xs (∅, [])).

Section Finder.

Variable h : Host.

(** The [for (const file of files)] loop of one directory of
    [findAllInstallations], run on the array [foundPaths]; [paths] is the
    outer array, which holds the lookup's result while the directories
    are swept. *)
Fixpoint sweepFiles (toolName : string) (paths : list string) (dir : string)
    (files : list string) (foundPaths : list string) : Exc (list string) :=
  match files with
  | [] => Return foundPaths
  | file :: rest =>
      let baseName :=
        if isWindows h
        then Js.toLowerCase (path_basename h file (path_extname h file))
        else Js.toLowerCase file in
      if String.eqb baseName (Js.toLowerCase toolName) then
        let fullPath := normalizePath h (path_join h dir file) in
        (isExec <- isExecutable h (path_join h dir file) ;;
         if negb (arrayIncludes paths fullPath) && isExec
         then sweepFiles toolName paths dir rest (foundPaths ++ [fullPath])
         else sweepFiles toolName paths dir rest foundPaths)%exc
      else sweepFiles toolName paths dir rest foundPaths
  end.

(** The callback mapped over [pathDirs]. *)
Definition sweepDirectory (toolName : string) (paths : list string) (dir : string)
  : Exc (list string) :=
  tryCatch
    (match fs_access h dir with
     | Throw _ => Return []
     | Return _ =>
         (files <- fs_readdir h dir ;;
          sweepFiles toolName paths dir files [])%exc
     end)
    (fun _ => Return []).

Definition findAllInstallations (toolName : string) : Exc (list string) :=
  (let paths : list string := [] in
   let pathResults := getAllToolPaths h toolName in
   let paths := paths ++ pathResults in
   let pathDirs := parsePath h in
   results <- promiseAll (sweepDirectory toolName paths) pathDirs ;;
   let paths := fold_left (fun paths dirPaths => paths ++ dirPaths) results paths in
   Return (spreadSet paths))%exc.

Definition detectCLITools (toolNames : list string) : list ExtendedToolInfo.t :=
  let results : list ExtendedToolInfo.t := [] in
  fold_left (fun results toolName => results ++ [getExtendedToolInfo h toolName])
    toolNames results.

End Finder.

(** ** Vocabulary of the further properties *)

(** The values of a list, each kept at its first occurrence. *)
Fixpoint firstUnique (xs : list string) : list string :=
  match xs with
  | [] => []
  | x :: rest => x :: filter (fun y => y ≠ x) (firstUnique rest)
  end.

(** [file] of a swept directory has the base name of [toolName]. *)
Definition namesTool (h : Host) (toolName file : string) : bool :=
  String.eqb
    (if isWindows h
     then Js.toLowerCase (path_basename h file (path_extname h file))
     else Js.toLowerCase file)
    (Js.toLowerCase toolName).

(** What [isExecutable] resolves to, [false] standing for a rejection
    (there is none, see [isExecutable_returns]). *)
Definition executableAt (h : Host) (filePath : string) : bool :=
  match isExecutable h filePath with
  | Return b => b
  | Throw _ => false
  end.

(** The paths the sweep of [dir] adds for [toolName], [paths] being the
    lookup's result. *)
Definition sweepHits (h : Host) (toolName : string) (paths : list string) (dir : string)
  : list string :=
  match fs_access h dir, fs_readdir h dir with
  | Return _, Return files =>
      map (fun file => normalizePath h (path_join h dir file))
        (List.filter
           (fun file =>
              namesTool h toolName file
              && (negb (arrayIncludes paths (normalizePath h (path_join h dir file)))
                  && executableAt h (path_join h dir file)))
           files)
  | _, _ => []
  end.

(** An instruction line is a comment when it starts with a hash sign. *)
Definition isComment (line : string) : bool := Js.startsWith line "#".

(** The five package-manager methods. *)
Definition isPackageManager (m : InstallMethod) : bool :=
  match m with
  | homebrew | chocolatey | apt | npm | pip => true
  | manual | other _ => false
  end.




(** ** The view's handler that opens a configuration file *)

Module Renderer.

(** What [handleOpenConfig] reads from outside: whether
    [window.electronAPI?.shell?.openPath] is there, and the two
    environment variables. *)
Record Env : Type := {
  hasOpenPath : bool;
  env_HOME : option string;
  env_USERPROFILE : option string
}.

(** [s.slice(n)]. *)
Fixpoint dropUnits (n : nat) (s : string) : string :=
  match n, s with
  | O, _ => s
  | S _, EmptyString => EmptyString
  | S n', String _ r => dropUnits n' r
  end.

(** The replacement text of [String.prototype.replace] for a string
    pattern (no captures): in the template a dollar sign followed by a
    dollar sign stands for one dollar sign, by an ampersand for the
    matched text, by a backquote for the text before the match, by a
    quote for the text after it; any other dollar sign stands for
    itself. *)
Fixpoint getSubstitution (matched before after template : string) : string :=
  match template with
  | EmptyString => EmptyString
  | String c rest =>
      if Ascii.eqb c "$" then
        match rest with
        | EmptyString => String c EmptyString
        | String d rest' =>
            if Ascii.eqb d "$" then
              String "$" (getSubstitution matched before after rest')
            else if Ascii.eqb d "&" then
              matched +:+ getSubstitution matched before after rest'
            else if Ascii.eqb d "`" then
              before +:+ getSubstitution matched before after rest'
            else if Ascii.eqb d "'" then
              after +:+ getSubstitution matched before after rest'
            else String c (getSubstitution matched before after rest)
        end
      else String c (getSubstitution matched before after rest)
  end.

(** The search of [replace] for the first occurrence of [searchString],
    [before] being the text already passed. *)
Fixpoint replaceFrom (before rest searchString replaceValue : string) : string :=
  if Js.startsWith rest searchString then
    let after := dropUnits (String.length searchString) rest in
    before +:+ getSubstitution searchString before after replaceValue +:+ after
  else
    match rest with
    | EmptyString => before
    | String c rest' =>
        replaceFrom (before +:+ String c EmptyString) rest' searchString replaceValue
    end.

(** [s.replace(searchString, replaceValue)], both strings: the first
    occurrence only. *)
Definition replace (s searchString replaceValue : string) : string :=
  replaceFrom "" s searchString replaceValue.

(** The handler, as the path it hands to [openPath]; [None] when it does
    not call it. *)
Definition handleOpenConfig (env : Env) (configPath : string) : option string :=
  if hasOpenPath env then
    let expandedPath := configPath in
    let expandedPath :=
      if Js.startsWith configPath "~" then
        replace configPath "~" (orElse (env_HOME env) "")
      else if Js.includes configPath "%USERPROFILE%" then
        replace configPath "%USERPROFILE%" (orElse (env_USERPROFILE env) "")
      else expandedPath in
    Some expandedPath
  else None.

(** A sample environment. *)
Definition desktop : Env :=
  {| hasOpenPath := true;
     env_HOME := Some "/home/ada";
     env_USERPROFILE := Some "C:\Users\ada" |}.

End Renderer.

(** ** A sample host

    A small POSIX machine and a small Windows machine on which the
    definitions above can be run.  Their [path] functions are simple
    stand-ins (forward-slash joining, extension after the last dot), good
    enough for the file names used below. *)

Module Sample.

Definition join (a b : string) : string := a +:+ "/" +:+ b.

Definition extname (p : string) : string :=
  let base := List.last (Js.split "/" p) "" in
  match Js.split "." base with
  | [] | [_] => ""
  | ["" ; _] => ""
  | pieces => "." +:+ List.last pieces ""
  end.

Definition basename (p ext : string) : string :=
  let base := List.last (Js.split "/" p) "" in
  let n := (String.length base - String.length ext)%nat in
  if String.eqb (String.substring n (String.length ext) base) ext
     && (0 <? n)%nat
  then String.substring 0 n base else base.

Definition regular (m : Z) : Exc Stats := Return {| isFile := true; mode := m |}.

(** /usr/bin holds git (0755), notes.txt (0644) and a directory;
    /opt/tools holds git (0755); /root/bin cannot be listed. *)
Definition posixStat (p : string) : Exc Stats :=
  if String.eqb p "/usr/bin/git" then regular 33261
  else if String.eqb p "/usr/bin/notes.txt" then regular 33188
  else if String.eqb p "/usr/bin/X11" then Return {| isFile := false; mode := 16877 |}
  else if String.eqb p "/opt/tools/git" then regular 33261
  else Throw ENOENT.

Definition posixAccess (d : string) : Exc unit :=
  if String.eqb d "/usr/bin" || String.eqb d "/opt/tools" || String.eqb d "/root/bin"
  then Return tt else Throw ENOENT.

Definition posixReaddir (d : string) : Exc (list string) :=
  if String.eqb d "/usr/bin" then Return ["git"; "notes.txt"; "X11"]
  else if String.eqb d "/opt/tools" then Return ["git"]
  else if String.eqb d "/root/bin" then Throw EACCES
  else Throw ENOENT.

Definition which (tool : string) : list string :=
  if String.eqb tool "git" then ["/usr/bin/git"; "/opt/tools/git"]
  else if String.eqb tool "dup" then ["/usr/bin/dup"; "/usr/bin/dup"]
  else [].

Definition run (cmd : string) : CommandResult :=
  if String.eqb cmd "git --version"
  then {| success := true; stdout := Some "git version 2.43.0"; stderr := None |}
  else {| success := false; stdout := None; stderr := Some "not found" |}.

Definition linux : Host := {|
  isWindows := false;
  platform := "linux";
  env_PATH := Some "/usr/bin: /opt/tools ::/missing:/root/bin:/usr/bin";
  env_Path := None;
  path_extname := extname;
  path_basename := basename;
  path_join := join;
  fs_stat := posixStat;
  fs_access := posixAccess;
  fs_readdir := posixReaddir;
  normalizePath := fun p => p;
  getAllToolPaths := which;
  executeSafe := run;
  parseVersion := fun text => if Js.truthy text then Some text else None
|}.

Definition darwin : Host := {|
  isWindows := false;
  platform := "darwin";
  env_PATH := Some "/usr/bin";
  env_Path := None;
  path_extname := extname;
  path_basename := basename;
  path_join := join;
  fs_stat := posixStat;
  fs_access := posixAccess;
  fs_readdir := posixReaddir;
  normalizePath := fun p => p;
  getAllToolPaths := which;
  executeSafe := run;
  parseVersion := fun text => if Js.truthy text then Some text else None
|}.

(** C:/bin holds tool.exe, tool.txt and run.CMD. *)
Definition winStat (p : string) : Exc Stats :=
  if String.eqb p "C:/bin/tool.exe" || String.eqb p "C:/bin/tool.txt"
     || String.eqb p "C:/bin/run.CMD"
  then regular 33206 else Throw ENOENT.

Definition win32 : Host := {|
  isWindows := true;
  platform := "win32";
  env_PATH := None;
  env_Path := Some "C:/bin;C:/none";
  path_extname := extname;
  path_basename := basename;
  path_join := join;
  fs_stat := winStat;
  fs_access := fun d => if String.eqb d "C:/bin" then Return tt else Throw ENOENT;
  fs_readdir := fun d =>
    if String.eqb d "C:/bin" then Return ["tool.exe"; "tool.txt"; "run.CMD"]
    else Throw ENOENT;
  normalizePath := fun p => p;
  getAllToolPaths := fun _ => ["C:/bin/tool.exe"];
  executeSafe := fun _ => {| success := false; stdout := Some ""; stderr := Some "" |};
  parseVersion := fun _ => None
|}.

End Sample.

(** Further sample hosts. *)

Module MoreSamples.

(** The sample Linux host with a search path none of whose directories
    can be listed. *)
Definition stranded : Host := {|
  isWindows := false;
  platform := "linux";
  env_PATH := Some "/missing:/root/bin";
  env_Path := None;
  path_extname := Sample.extname;
  path_basename := Sample.basename;
  path_join := Sample.join;
  fs_stat := Sample.posixStat;
  fs_access := Sample.posixAccess;
  fs_readdir := Sample.posixReaddir;
  normalizePath := fun p => p;
  getAllToolPaths := Sample.which;
  executeSafe := Sample.run;
  parseVersion := fun text => if Js.truthy text then Some text else None
|}.

(** The sample Linux host with a search path of blank pieces only. *)
Definition blank : Host := {|
  isWindows := false;
  platform := "linux";
  env_PATH := Some " :  ::";
  env_Path := Some "/usr/bin";
  path_extname := Sample.extname;
  path_basename := Sample.basename;
  path_join := Sample.join;
  fs_stat := Sample.posixStat;
  fs_access := Sample.posixAccess;
  fs_readdir := Sample.posixReaddir;
  normalizePath := fun p => p;
  getAllToolPaths := Sample.which;
  executeSafe := Sample.run;
  parseVersion := fun text => if Js.truthy text then Some text else None
|}.

End MoreSamples.

(** ** Facts about the string operations *)

Module JsFacts.
Import Js.

Lemma lowerUnit_idem (c : ascii) : lowerUnit (lowerUnit c) = lowerUnit c.
Proof. destruct c as [[] [] [] [] [] [] [] []]; vm_compute; reflexivity. Qed.

Lemma toLowerCase_idem (s : string) :
  toLowerCase (toLowerCase s) = toLowerCase s.
Proof.
  induction s as [|c r IH]; simpl; [reflexivity|].
  now rewrite lowerUnit_idem, IH.
Qed.

Lemma truthy_toLowerCase (s : string) : truthy (toLowerCase s) = truthy s.
Proof. now destruct s. Qed.

Lemma startsWith_spec (s sub : string) :
  startsWith s sub = true <-> exists rest, s = sub +:+ rest.
Proof.
  revert s; induction sub as [|b sub IH]; intros s; simpl.
  - split; [intros _; now exists s | reflexivity].
  - destruct s as [|a s]; simpl.
    + split; [discriminate | intros [rest Hrest]; discriminate].
    + destruct (Ascii.eqb_spec a b) as [->|Hne].
      * rewrite IH. split; intros [rest Hrest]; exists rest.
        -- now rewrite Hrest.
        -- now injection Hrest.
      * split; [discriminate|]. intros [rest Hrest]. now injection Hrest.
Qed.

(** [includes] is the substring test. *)
Lemma includes_spec (s sub : string) :
  includes s sub = true <-> exists before after, s = before +:+ sub +:+ after.
Proof.
  induction s as [|a s IH]; simpl.
  - destruct (startsWith "" sub) eqn:Hsw.
    + apply startsWith_spec in Hsw as [rest Hrest].
      split; [intros _; now exists "", rest | reflexivity].
    + split; [discriminate|]. intros (before & after & Heq).
      destruct before; simpl in Heq; [|discriminate].
      assert (startsWith "" sub = true) by (apply startsWith_spec; eauto).
      congruence.
  - destruct (startsWith (String a s) sub) eqn:Hsw.
    + apply startsWith_spec in Hsw as [rest Hrest].
      split; [intros _; now exists "", rest | reflexivity].
    + rewrite IH. split.
      * intros (before & after & ->). now exists (String a before), after.
      * intros (before & after & Heq). destruct before as [|b before].
        -- assert (startsWith (String a s) sub = true)
             by (apply startsWith_spec; exists after; exact Heq).
           congruence.
        -- simpl in Heq. injection Heq as _ ->. now exists before, after.
Qed.

Lemma trimEnd_empty (s : string) : trimEnd s = "" <-> isBlank s = true.
Proof.
  induction s as [|c r IH]; simpl; [easy|].
  destruct (trimEnd r) eqn:Hr, (isWhiteSpace c); simpl.
  - rewrite <- IH. easy.
  - easy.
  - rewrite <- IH. easy.
  - easy.
Qed.

Lemma isBlank_trimStart (s : string) : isBlank (trimStart s) = isBlank s.
Proof.
  induction s as [|c r IH]; simpl; [reflexivity|].
  destruct (isWhiteSpace c) eqn:Hc; simpl; [exact IH | now rewrite Hc].
Qed.

(** [trim] leaves nothing exactly of the blank strings. *)
Lemma trim_empty (s : string) : trim s = "" <-> isBlank s = true.
Proof. unfold trim. now rewrite trimEnd_empty, isBlank_trimStart. Qed.

Lemma truthy_trim (s : string) : truthy (trim s) = negb (isBlank s).
Proof.
  destruct (isBlank s) eqn:Hb.
  - apply trim_empty in Hb. now rewrite Hb.
  - destruct (trim s) eqn:Ht; [|reflexivity].
    apply trim_empty in Ht. congruence.
Qed.

Lemma split_nonempty (sep : ascii) (s : string) : split sep s <> [].
Proof.
  destruct s as [|c r]; simpl; [discriminate|].
  destruct (Ascii.eqb c sep); [discriminate|].
  destruct (split sep r); discriminate.
Qed.

(** Joining the pieces with the separator gives the string back. *)
Lemma join_split (sep : ascii) (s : string) : join sep (split sep s) = s.
Proof.
  induction s as [|c r IH]; simpl; [reflexivity|].
  destruct (Ascii.eqb_spec c sep) as [->|Hne].
  - pose proof (split_nonempty sep r) as Hne.
    simpl. destruct (split sep r) as [|p ps]; [congruence|].
    now rewrite IH.
  - pose proof (split_nonempty sep r) as Hnil.
    destruct (split sep r) as [|p ps]; [congruence|].
    destruct ps as [|q qs]; simpl in *; now rewrite <- IH.
Qed.

Lemma split_free (sep : ascii) (s : string) :
  hasUnit sep s = false -> split sep s = [s].
Proof.
  induction s as [|c r IH]; simpl; [reflexivity|].
  intros H. apply orb_false_iff in H as [Hc Hr].
  rewrite Hc, (IH Hr). reflexivity.
Qed.

Lemma split_app_sep (sep : ascii) (p rest : string) :
  hasUnit sep p = false ->
  split sep (p +:+ String sep rest) = p :: split sep rest.
Proof.
  induction p as [|c r IH]; simpl; intros H.
  - now rewrite Ascii.eqb_refl.
  - apply orb_false_iff in H as [Hc Hr].
    rewrite Hc, (IH Hr). reflexivity.
Qed.

(** The pieces are determined by the string: any way of writing it as
    separator-free pieces joined by the separator is what [split] finds. *)
Lemma split_join (sep : ascii) (pieces : list string) :
  pieces <> [] ->
  Forall (fun p => hasUnit sep p = false) pieces ->
  split sep (join sep pieces) = pieces.
Proof.
  induction pieces as [|p ps IH]; [congruence|].
  intros _ Hfree. inversion Hfree as [|? ? Hp Hps]; subst.
  destruct ps as [|q qs].
  - simpl. now apply split_free.
  - change (join sep (p :: q :: qs)) with (p +:+ String sep (join sep (q :: qs))).
    rewrite split_app_sep by exact Hp.
    rewrite IH; [reflexivity | discriminate | exact Hps].
Qed.

Lemma split_pieces_free (sep : ascii) (s : string) :
  Forall (fun p => hasUnit sep p = false) (split sep s).
Proof.
  induction s as [|c r IH]; simpl.
  - constructor; [reflexivity | constructor].
  - destruct (Ascii.eqb c sep) eqn:Hc.
    + constructor; [reflexivity | exact IH].
    + pose proof (split_nonempty sep r) as Hnil.
      destruct (split sep r) as [|p ps]; [congruence|].
      inversion IH; subst. constructor; [|assumption].
      simpl. now rewrite Hc.
Qed.

End JsFacts.

(** ** Properties of [identifyInstallMethod] *)

Section ProvenanceProperties.
Import Provenance.

Lemma identifyInstallMethod_table (h : Host) (p : string) :
  identifyInstallMethod h p = classifyLowered (platform h) p.
Proof.
  unfold identifyInstallMethod, classifyLowered.
  destruct p as [|c p]; [reflexivity|].
  change (Js.truthy (String c p)) with true. cbv beta iota zeta. simpl negb. cbv iota.
  generalize (Js.toLowerCase (String c p)) as text. intros text.
  unfold heuristicRules, laterRules, homebrewRule, firstMatch, ruleMatches.
  cbn [needles linuxOnly yields existsb negb orb].
  repeat match goal with
         | |- context [Js.includes text ?n] => destruct (Js.includes text n)
         end;
    cbn [orb andb]; try reflexivity;
    destruct (String.eqb (platform h) "linux"); reflexivity.
Qed.

Lemma firstMatch_earliest (platformId text : string) (before after : list Rule) (r : Rule) :
  Forall (fun r' => ruleMatches platformId text r' = false) before ->
  ruleMatches platformId text r = true ->
  firstMatch platformId text (before ++ r :: after) = yields r.
Proof.
  induction 1 as [|r' before Hr' _ IH]; intros Hr; simpl.
  - now rewrite Hr.
  - rewrite Hr'. now apply IH.
Qed.

Lemma firstMatch_none (platformId text : string) (rules : list Rule) :
  Forall (fun r' => ruleMatches platformId text r' = false) rules ->
  firstMatch platformId text rules = manual.
Proof. induction 1 as [|r rs Hr _ IH]; simpl; [reflexivity | now rewrite Hr]. Qed.

End ProvenanceProperties.

(** C1 (as amended).  [identifyInstallMethod] is the ordered first-match
    heuristic applied to the lower-cased path: the empty path is manual;
    otherwise the result is the tag of the earliest rule of the table
    (homebrew, chocolatey, apt gated on Linux, npm, pip) one of whose
    needles occurs in the lower-cased path, and manual when no rule
    matches.  '/usr/bin/foo' is apt on Linux and manual elsewhere. *)
Theorem identifyInstallMethod_first_match (h : Host) (p : string) :
  identifyInstallMethod h p = Provenance.classifyLowered (platform h) p
  /\ (p = "" -> identifyInstallMethod h p = manual)
  /\ (forall before r after,
        p <> "" ->
        Provenance.heuristicRules = before ++ r :: after ->
        Forall (fun r' => Provenance.ruleMatches (platform h) (Js.toLowerCase p) r' = false)
          before ->
        Provenance.ruleMatches (platform h) (Js.toLowerCase p) r = true ->
        identifyInstallMethod h p = Provenance.yields r)
  /\ (Forall (fun r' => Provenance.ruleMatches (platform h) (Js.toLowerCase p) r' = false)
        Provenance.heuristicRules ->
      identifyInstallMethod h p = manual)
  /\ (platform h = "linux" -> identifyInstallMethod h "/usr/bin/foo" = apt)
  /\ (platform h <> "linux" -> identifyInstallMethod h "/usr/bin/foo" = manual).
Proof.
  repeat split.
  - apply identifyInstallMethod_table.
  - intros ->. reflexivity.
  - intros before r after Hp Hrules Hbefore Hr.
    rewrite identifyInstallMethod_table. unfold Provenance.classifyLowered.
    destruct p as [|c p]; [congruence|].
    rewrite Hrules. now apply firstMatch_earliest.
  - intros Hnone. rewrite identifyInstallMethod_table.
    unfold Provenance.classifyLowered. destruct p; [reflexivity|].
    now apply firstMatch_none.
  - intros Hlinux. unfold identifyInstallMethod. rewrite Hlinux.
    vm_compute. reflexivity.
  - intros Hother. unfold identifyInstallMethod.
    apply String.eqb_neq in Hother. rewrite Hother.
    vm_compute. reflexivity.
Qed.

(** The apt rule fires for '/usr/bin/foo' on the sample Linux host, where
    the homebrew and chocolatey rules before it do not match. *)
Lemma identifyInstallMethod_first_match_witness :
  identifyInstallMethod Sample.linux "/usr/bin/foo" = apt
  /\ identifyInstallMethod Sample.darwin "/usr/bin/foo" = manual
  /\ identifyInstallMethod Sample.linux "/usr/bin/npm" = apt.
Proof.
  split; [|split].
  - apply (proj1 (proj2 (proj2 (proj2 (proj2
      (identifyInstallMethod_first_match Sample.linux "")))))).
    reflexivity.
  - apply (proj2 (proj2 (proj2 (proj2 (proj2
      (identifyInstallMethod_first_match Sample.darwin "")))))).
    simpl. discriminate.
  - apply (proj1 (proj2 (proj2
      (identifyInstallMethod_first_match Sample.linux "/usr/bin/npm")))
      (firstn 2 Provenance.heuristicRules)
      (List.nth 2 Provenance.heuristicRules Provenance.homebrewRule)
      (skipn 3 Provenance.heuristicRules)).
    + discriminate.
    + reflexivity.
    + repeat constructor.
    + reflexivity.
Defined.

(** C1, counterexample.  Read word for word (case ignored by the homebrew
    rule only), the heuristic sends a path spelled 'Chocolatey' to manual;
    the code lower-cases first and answers chocolatey. *)
Lemma identifyInstallMethod_as_stated_counterexample :
  Provenance.classifyAsStated "win32" "C:\ProgramData\Chocolatey\bin\foo.exe" = manual
  /\ identifyInstallMethod Sample.win32 "C:\ProgramData\Chocolatey\bin\foo.exe" = chocolatey
  /\ identifyInstallMethod Sample.win32 "C:\ProgramData\Chocolatey\bin\foo.exe"
     <> Provenance.classifyAsStated (platform Sample.win32)
          "C:\ProgramData\Chocolatey\bin\foo.exe".
Proof. vm_compute. repeat split; discriminate. Qed.

(** C10.  Lower-casing the path beforehand does not change its class:
    every rule is tested on the lower-cased path. *)
Theorem identifyInstallMethod_case_insensitive (h : Host) (p : string) :
  identifyInstallMethod h p = identifyInstallMethod h (Js.toLowerCase p).
Proof.
  unfold identifyInstallMethod.
  now rewrite JsFacts.toLowerCase_idem, JsFacts.truthy_toLowerCase.
Qed.

(** ** Properties of [generateUninstallInstructions] *)

(** C9.  Whatever the tool name, method and path (the manual method with
    an empty path and any method outside the six tags included), the
    instruction list has at least one entry, and at most three. *)
Theorem generateUninstallInstructions_nonempty
    (h : Host) (toolName : string) (installMethod : InstallMethod) (toolPath : string) :
  generateUninstallInstructions h toolName installMethod toolPath <> []
  /\ (1 <= length (generateUninstallInstructions h toolName installMethod toolPath) <= 3)%nat.
Proof.
  unfold generateUninstallInstructions.
  destruct installMethod; simpl;
    try (split; [discriminate | lia]);
    destruct (Js.truthy toolPath), (isWindows h); simpl;
    (split; [discriminate | lia]).
Qed.

(** ** Properties of [getVersionOutput] *)

Lemma hasText_present (o : option string) : hasText o = VersionText.present o.
Proof.
  destruct o as [s|]; simpl; [|reflexivity].
  rewrite JsFacts.truthy_trim.
  destruct s; simpl; [reflexivity|]. reflexivity.
Qed.

(** C8 (as amended).  The text handed to the version parser is the stdout
    string when stdout has a character that is not white space, otherwise
    the stderr string when stderr has one, otherwise the empty string.
    The chosen stream is handed over untrimmed. *)
Theorem getVersionOutput_prefers_text (result : CommandResult) :
  (forall out, stdout result = Some out -> Js.isBlank out = false ->
     getVersionOutput result = out)
  /\ (forall err, VersionText.present (stdout result) = false ->
        stderr result = Some err -> Js.isBlank err = false ->
        getVersionOutput result = err)
  /\ (VersionText.present (stdout result) = false ->
      VersionText.present (stderr result) = false ->
      getVersionOutput result = "").
Proof.
  unfold getVersionOutput. rewrite !hasText_present.
  repeat split.
  - intros out Hout Hblank. rewrite Hout. simpl. now rewrite Hblank.
  - intros err Hnone Herr Hblank. rewrite Hnone, Herr. simpl. now rewrite Hblank.
  - intros Hnone Hnone'. now rewrite Hnone, Hnone'.
Qed.

Lemma getVersionOutput_prefers_text_witness :
  getVersionOutput {| success := true; stdout := Some " "; stderr := Some "v1.2.3" |}
  = "v1.2.3".
Proof.
  apply (proj1 (proj2 (getVersionOutput_prefers_text
    {| success := true; stdout := Some " "; stderr := Some "v1.2.3" |}))).
  - reflexivity.
  - reflexivity.
  - reflexivity.
Defined.

(** C8, counterexample.  A probe whose stdout is a single space and whose
    stderr carries the banner: stdout is not the empty string, yet the
    parser receives stderr. *)
Lemma getVersionOutput_as_stated_counterexample :
  let result := {| success := true; stdout := Some " "; stderr := Some "v1.2.3" |} in
  stdout result = Some " "
  /\ " " <> ""
  /\ VersionText.asStated result = " "
  /\ getVersionOutput result = "v1.2.3"
  /\ getVersionOutput result <> VersionText.asStated result.
Proof. vm_compute. repeat split; discriminate. Qed.

(** ** Properties of [getExtendedToolInfo] *)

(** C2.  [isInstalled] holds exactly when the lookup returned a path and
    the version probe reported success; a resolved path with a failed
    probe gives [isInstalled = false]. *)
Theorem getExtendedToolInfo_isInstalled (h : Host) (toolName : string) :
  let record := getExtendedToolInfo h toolName in
  let probe := executeSafe h (toolName +:+ " --version") in
  (ExtendedToolInfo.isInstalled record = true <->
     getAllToolPaths h toolName <> [] /\ success probe = true)
  /\ (getAllToolPaths h toolName <> [] -> success probe = false ->
      ExtendedToolInfo.isInstalled record = false).
Proof.
  cbn zeta. unfold getExtendedToolInfo. cbn [ExtendedToolInfo.isInstalled].
  destruct (getAllToolPaths h toolName) as [|p ps]; simpl.
  - split; [|congruence]. split; [discriminate | intros [Hne _]; congruence].
  - split.
    + split; [intros ->; split; [discriminate | reflexivity] | now intros [_ ->]].
    + now intros _ ->.
Qed.

(** The sample Windows host resolves a path for 'tool' but its probe fails. *)
Lemma getExtendedToolInfo_isInstalled_witness :
  ExtendedToolInfo.isInstalled (getExtendedToolInfo Sample.win32 "tool") = false.
Proof.
  apply (proj2 (getExtendedToolInfo_isInstalled Sample.win32 "tool")).
  - discriminate.
  - reflexivity.
Defined.

(** C5 (as amended).  [allPaths] is the list the lookup returned, entry
    for entry; it is free of duplicates exactly when that list is. *)
Theorem getExtendedToolInfo_allPaths (h : Host) (toolName : string) :
  ExtendedToolInfo.allPaths (getExtendedToolInfo h toolName) = getAllToolPaths h toolName
  /\ (NoDup (getAllToolPaths h toolName) ->
      NoDup (ExtendedToolInfo.allPaths (getExtendedToolInfo h toolName)))
  /\ (NoDup (ExtendedToolInfo.allPaths (getExtendedToolInfo h toolName)) ->
      NoDup (getAllToolPaths h toolName)).
Proof. repeat split; intros H; exact H. Qed.

Lemma getExtendedToolInfo_allPaths_witness :
  NoDup (ExtendedToolInfo.allPaths (getExtendedToolInfo Sample.linux "git")).
Proof.
  apply (proj1 (proj2 (getExtendedToolInfo_allPaths Sample.linux "git"))).
  vm_compute. repeat constructor; rewrite ?list_elem_of_In; simpl; intuition discriminate.
Defined.

(** C5, counterexample.  When the lookup reports the same path twice (a
    directory listed twice in the search path), [allPaths] has it twice. *)
Lemma getExtendedToolInfo_allPaths_counterexample :
  ExtendedToolInfo.allPaths (getExtendedToolInfo Sample.linux "dup")
  = ["/usr/bin/dup"; "/usr/bin/dup"]
  /\ ~ NoDup (ExtendedToolInfo.allPaths (getExtendedToolInfo Sample.linux "dup")).
Proof.
  split; [reflexivity|].
  intros H. vm_compute in H. inversion H as [|? ? Hnotin _]; subst.
  apply Hnotin. constructor.
Qed.

(** ** Properties of [parsePath] *)

Section ParsePathProperties.
Variable h : Host.

Lemma orElse_unset (v : option string) (d : string) :
  unsetOrEmpty v -> orElse v d = d.
Proof. now intros [-> | ->]. Qed.

Lemma orElse_set (value d : string) : value <> "" -> orElse (Some value) d = value.
Proof. destruct value; simpl; congruence. Qed.

Lemma pathEnv_value (value : string) :
  searchPathIs h value -> orElse (env_PATH h) (orElse (env_Path h) "") = value.
Proof.
  intros [Hne [HPATH | [HPATH HPath]]].
  - rewrite HPATH. now apply orElse_set.
  - rewrite (orElse_unset _ _ HPATH), HPath. now apply orElse_set.
Qed.

End ParsePathProperties.

(** C6.  [parsePath] is a total function.  With the search-path variable
    unset or empty (under both spellings) it returns the empty list.
    Otherwise, however the value is written as pieces free of the
    platform separator joined by it (and every value can be so written),
    the result is those pieces trimmed, the empty ones discarded, each
    normalized, in their order.  The separator is ';' on Windows and ':'
    elsewhere. *)
Theorem parsePath_segments (h : Host) :
  (unsetOrEmpty (env_PATH h) -> unsetOrEmpty (env_Path h) -> parsePath h = [])
  /\ (forall value segments,
        searchPathIs h value ->
        Forall (fun s => Js.hasUnit (getPathSeparator h) s = false) segments ->
        Js.join (getPathSeparator h) segments = value ->
        parsePath h =
          map (normalizePath h)
            (List.filter (fun s => negb (String.eqb s "")) (map Js.trim segments)))
  /\ (forall value, exists segments,
        Forall (fun s => Js.hasUnit (getPathSeparator h) s = false) segments
        /\ Js.join (getPathSeparator h) segments = value)
  /\ getPathSeparator h = (if isWindows h then ";" else ":")%char.
Proof.
  split; [|split; [|split; [|reflexivity]]].
  3:{ intros value. exists (Js.split (getPathSeparator h) value).
      split; [apply JsFacts.split_pieces_free | apply JsFacts.join_split]. }
  - intros HPATH HPath. unfold parsePath.
    now rewrite (orElse_unset _ _ HPATH), (orElse_unset _ _ HPath).
  - intros value segments Hvalue Hfree Hjoin. unfold parsePath.
    rewrite (pathEnv_value h value Hvalue), <- Hjoin.
    rewrite JsFacts.split_join.
    + f_equal. apply filter_ext. intros s. now destruct s.
    + intros ->. destruct Hvalue as [Hne _]. simpl in Hjoin. congruence.
    + exact Hfree.
Qed.

Lemma parsePath_segments_witness :
  parsePath Sample.linux = ["/usr/bin"; "/opt/tools"; "/missing"; "/root/bin"; "/usr/bin"]
  /\ parsePath Sample.win32 = ["C:/bin"; "C:/none"]
  /\ parsePath Sample.win32 <> [].
Proof.
  split; [|split].
  - apply (proj1 (proj2 (parsePath_segments Sample.linux))
             "/usr/bin: /opt/tools ::/missing:/root/bin:/usr/bin"
             ["/usr/bin"; " /opt/tools "; ""; "/missing"; "/root/bin"; "/usr/bin"]).
    + split; [discriminate | left; reflexivity].
    + repeat constructor.
    + reflexivity.
  - apply (proj1 (proj2 (parsePath_segments Sample.win32))
             "C:/bin;C:/none" ["C:/bin"; "C:/none"]).
    + split; [discriminate | right; split; [left|]; reflexivity].
    + repeat constructor.
    + reflexivity.
  - vm_compute. discriminate.
Defined.

(** ** Properties of [isExecutable] *)

Section ExecutableBits.

Lemma land_pow2_zero (m : Z) (n : Z) :
  (0 <= n)%Z -> (Z.land m (2 ^ n) =? 0)%Z = negb (Z.testbit m n).
Proof.
  intros Hn. destruct (Z.testbit m n) eqn:Hbit; simpl.
  - apply Z.eqb_neq. intros Hzero.
    assert (Hb : Z.testbit (Z.land m (2 ^ n)) n = true).
    { rewrite Z.land_spec, Hbit, Z.pow2_bits_true by exact Hn. reflexivity. }
    rewrite Hzero, Z.bits_0 in Hb. discriminate.
  - apply Z.eqb_eq. apply Z.bits_inj'. intros i Hi.
    rewrite Z.land_spec, Z.bits_0, Z.pow2_bits_eqb by exact Hn.
    destruct (Z.eqb_spec n i) as [->|_]; [now rewrite Hbit | apply andb_false_r].
Qed.

Lemma execute_masks (m : Z) :
  negb (Z.land m S_IXUSR =? 0)%Z || negb (Z.land m S_IXGRP =? 0)%Z
    || negb (Z.land m S_IXOTH =? 0)%Z
  = anyExecuteBit m.
Proof.
  unfold anyExecuteBit.
  change S_IXUSR with (2 ^ 6)%Z. change S_IXGRP with (2 ^ 3)%Z.
  change S_IXOTH with (2 ^ 0)%Z.
  rewrite !land_pow2_zero by lia. now rewrite !negb_involutive.
Qed.

Lemma arrayIncludes_In (xs : list string) (x : string) :
  arrayIncludes xs x = true <-> In x xs.
Proof.
  unfold arrayIncludes. rewrite existsb_exists. split.
  - intros (y & Hy & Heq). apply String.eqb_eq in Heq. now subst.
  - intros Hx. exists x. split; [exact Hx | apply String.eqb_refl].
Qed.

End ExecutableBits.

(** C4.  [isExecutable] always resolves to a boolean.  It is false when
    [stat] fails and when the entry is not a regular file.  For a regular
    file, on Windows it is true exactly when the lower-cased extension is
    one of .exe .cmd .bat .com .ps1 (so never for the extension .txt), and
    elsewhere exactly when an owner, group or other execute bit of the
    mode is set (so never for a mode without execute bits). *)
Theorem isExecutable_policy (h : Host) (filePath : string) :
  (exists b, isExecutable h filePath = Return b)
  /\ (forall e, fs_stat h filePath = Throw e -> isExecutable h filePath = Return false)
  /\ (forall stats, fs_stat h filePath = Return stats -> isFile stats = false ->
        isExecutable h filePath = Return false)
  /\ (forall stats, fs_stat h filePath = Return stats -> isFile stats = true ->
        isWindows h = true ->
        (isExecutable h filePath = Return true <->
           In (Js.toLowerCase (path_extname h filePath))
              [".exe"; ".cmd"; ".bat"; ".com"; ".ps1"])
        /\ (isExecutable h filePath = Return false <->
           ~ In (Js.toLowerCase (path_extname h filePath))
              [".exe"; ".cmd"; ".bat"; ".com"; ".ps1"]))
  /\ (forall stats, fs_stat h filePath = Return stats -> isFile stats = true ->
        isWindows h = false ->
        isExecutable h filePath = Return (anyExecuteBit (mode stats)))
  /\ (isWindows h = true -> Js.toLowerCase (path_extname h filePath) = ".txt" ->
        isExecutable h filePath = Return false)
  /\ (isWindows h = false ->
        (forall stats, fs_stat h filePath = Return stats -> anyExecuteBit (mode stats) = false) ->
        isExecutable h filePath = Return false).
Proof.
  pose proof (arrayIncludes_In executableExtensions
                (Js.toLowerCase (path_extname h filePath))) as Hin.
  unfold executableExtensions in Hin.
  unfold isExecutable, executableExtensions.
  destruct (fs_stat h filePath) as [stats|e]; cbn [bindExc tryCatch].
  - destruct (isFile stats) eqn:Hfile, (isWindows h) eqn:Hwin;
      cbn [bindExc tryCatch negb]; rewrite ?execute_masks.
    + split; [eauto|]. split; [discriminate|].
      split; [intros ? [= <-]; congruence|].
      split; [|split; [discriminate|split; [|discriminate]]].
      * intros _ _ _ _.
        destruct (arrayIncludes _ _); split; split.
        -- intros _. now apply Hin.
        -- reflexivity.
        -- discriminate.
        -- intros Hn. exfalso. apply Hn. now apply Hin.
        -- discriminate.
        -- intros Hx. apply Hin in Hx. discriminate.
        -- intros _ Hx. apply Hin in Hx. discriminate.
        -- reflexivity.
      * intros _ ->. reflexivity.
    + split; [eauto|]. split; [discriminate|].
      split; [intros ? [= <-]; congruence|].
      split; [discriminate|]. split; [|split; [discriminate|]].
      * intros stats' [= <-] _ _. reflexivity.
      * intros _ Hbits. now rewrite (Hbits stats eq_refl).
    + split; [eauto|]. repeat split; try reflexivity; try discriminate;
        try (intros ? [= <-]; congruence); intros; congruence.
    + split; [eauto|]. repeat split; try reflexivity; try discriminate;
        try (intros ? [= <-]; congruence); intros; congruence.
  - split; [eauto|]. repeat split; try reflexivity; discriminate.
Qed.

Lemma isExecutable_policy_witness :
  isExecutable Sample.win32 "C:/bin/tool.txt" = Return false
  /\ isExecutable Sample.linux "/usr/bin/notes.txt" = Return false
  /\ isExecutable Sample.linux "/usr/bin/git" = Return true
  /\ isExecutable Sample.linux "/nowhere" = Return false.
Proof.
  split; [|split; [|split]].
  - apply (proj1 (proj2 (proj2 (proj2 (proj2 (proj2
      (isExecutable_policy Sample.win32 "C:/bin/tool.txt")))))));
      reflexivity.
  - apply (proj2 (proj2 (proj2 (proj2 (proj2 (proj2
      (isExecutable_policy Sample.linux "/usr/bin/notes.txt"))))))).
    + reflexivity.
    + intros stats [= <-]. reflexivity.
  - apply (proj1 (proj2 (proj2 (proj2 (proj2
      (isExecutable_policy Sample.linux "/usr/bin/git")))))
      {| isFile := true; mode := 33261 |}); reflexivity.
  - apply (proj1 (proj2 (isExecutable_policy Sample.linux "/nowhere")) ENOENT).
    reflexivity.
Defined.

(** ** Properties of [scanDirectory] *)

Section ScanDirectoryProperties.
Variable h : Host.

Lemma isExecutable_returns (filePath : string) :
  exists b, isExecutable h filePath = Return b.
Proof.
  unfold isExecutable. destruct (fs_stat h filePath) as [stats|e]; simpl; [|eauto].
  destruct (isFile stats), (isWindows h); simpl; eauto.
Qed.

Lemma promiseAll_returns {A B} (f : A -> Exc B) (xs : list A) :
  (forall x, exists y, f x = Return y) ->
  exists ys, promiseAll f xs = Return ys /\ Forall2 (fun x y => f x = Return y) xs ys.
Proof.
  intros Hf. induction xs as [|x xs (ys & Hys & Hall)]; simpl.
  - exists []. split; [reflexivity | constructor].
  - destruct (Hf x) as [y Hy]. rewrite Hy, Hys. simpl.
    exists (y :: ys). split; [reflexivity | now constructor].
Qed.

Lemma scanDirectory_returns (directory : string) :
  exists executables, scanDirectory h directory = Return executables.
Proof.
  unfold scanDirectory. destruct (fs_access h directory); [|eauto].
  destruct (scanListing h directory []) as [outcome executables]. eauto.
Qed.

Lemma promiseAll_checkFile (directory : string) (files : list string) :
  promiseAll (checkFile h directory) files =
  Return (map (fun file =>
                 (file, path_join h directory file,
                  match isExecutable h (path_join h directory file) with
                  | Return b => b
                  | Throw _ => false
                  end)) files).
Proof.
  induction files as [|file files IH]; simpl; [reflexivity|].
  unfold checkFile at 1.
  destruct (isExecutable_returns (path_join h directory file)) as [b Hb].
  rewrite Hb, IH. reflexivity.
Qed.

Lemma fold_pushExecutable (directory : string) (files : list string)
    (f : string -> bool) (executables : list ExecutableInfo.t) :
  fold_left (pushExecutable h directory)
    (map (fun file => (file, path_join h directory file, f file)) files) executables
  = executables ++ map (recordOf h directory) (List.filter f files).
Proof.
  revert executables. induction files as [|file files IH]; intros executables; simpl.
  - now rewrite app_nil_r.
  - rewrite IH. destruct (f file); simpl; [|reflexivity].
    now rewrite <- app_assoc.
Qed.

(** When the directory can be listed, the result is one record per
    executable entry, in listing order. *)
Lemma scanDirectory_listing (directory : string) (files : list string) :
  fs_access h directory = Return tt ->
  fs_readdir h directory = Return files ->
  scanDirectory h directory =
  Return (map (recordOf h directory)
            (List.filter
               (fun file => match isExecutable h (path_join h directory file) with
                            | Return b => b
                            | Throw _ => false
                            end) files)).
Proof.
  intros Haccess Hreaddir. unfold scanDirectory, scanListing.
  rewrite Haccess, Hreaddir, promiseAll_checkFile.
  rewrite (fold_pushExecutable directory files
             (fun file => match isExecutable h (path_join h directory file) with
                          | Return b => b
                          | Throw _ => false
                          end)).
  reflexivity.
Qed.

End ScanDirectoryProperties.

(** C7.  [scanDirectory] always resolves to a list.  When the directory
    cannot be accessed, or its listing fails, the list is empty.  Hence
    scanning any list of directories resolves, with one result per
    directory in order, and so does [scanAllPathDirectories]. *)
Theorem scanDirectory_never_raises (h : Host) (directory : string) :
  (exists executables, scanDirectory h directory = Return executables)
  /\ (forall e, fs_access h directory = Throw e -> scanDirectory h directory = Return [])
  /\ (forall e, fs_readdir h directory = Throw e -> scanDirectory h directory = Return [])
  /\ (forall dirs, exists results,
        promiseAll (scanDirectory h) dirs = Return results
        /\ Forall2 (fun dir executables => scanDirectory h dir = Return executables)
             dirs results)
  /\ (exists allExecutables, scanAllPathDirectories h = Return allExecutables).
Proof.
  split; [apply scanDirectory_returns|].
  split; [|split; [|split]].
  - intros e He. unfold scanDirectory. now rewrite He.
  - intros e He. unfold scanDirectory, scanListing. rewrite He.
    now destruct (fs_access h directory).
  - intros dirs. apply promiseAll_returns. apply scanDirectory_returns.
  - unfold scanAllPathDirectories.
    destruct (promiseAll_returns (scanDirectory h) (parsePath h)
                (scanDirectory_returns h)) as (results & Hresults & _).
    rewrite Hresults. simpl. eauto.
Qed.

(** On the sample Linux host /missing does not exist and /root/bin cannot
    be listed; both give the empty list and the scan of the whole search
    path still finds the two git binaries. *)
Lemma scanDirectory_never_raises_witness :
  scanDirectory Sample.linux "/missing" = Return []
  /\ scanDirectory Sample.linux "/root/bin" = Return []
  /\ exists allExecutables,
       scanAllPathDirectories Sample.linux = Return allExecutables
       /\ length allExecutables = 2%nat.
Proof.
  split; [|split].
  - apply (proj1 (proj2 (scanDirectory_never_raises Sample.linux "/missing")) ENOENT).
    reflexivity.
  - apply (proj1 (proj2 (proj2 (scanDirectory_never_raises Sample.linux "/root/bin")))
             EACCES).
    reflexivity.
  - eexists. split; vm_compute; reflexivity.
Defined.

(** ** Deduplication in [scanAllPathDirectories] *)

Module DedupFacts.
Import Dedup.

Lemma execKey_namePath (a b : ExecutableInfo.t) :
  namePath a = namePath b -> execKey a = execKey b.
Proof. unfold namePath, execKey. now intros [= -> ->]. Qed.

Lemma string_app_inv_head (p s t : string) : p +:+ s = p +:+ t -> s = t.
Proof. induction p as [|c p IH]; simpl; [easy|]. intros [= H]. now apply IH. Qed.

(** Same name, different paths: different keys. *)
Lemma execKey_same_name (a b : ExecutableInfo.t) :
  ExecutableInfo.name a = ExecutableInfo.name b ->
  ExecutableInfo.path a ≠ ExecutableInfo.path b ->
  execKey a ≠ execKey b.
Proof.
  unfold execKey. intros -> Hpath Hkey. apply Hpath.
  apply string_app_inv_head in Hkey. now injection Hkey.
Qed.

Lemma fold_addExecutable (l : list ExecutableInfo.t)
    (seen : gset string) (acc : list ExecutableInfo.t) :
  snd (fold_left addExecutable l (seen, acc))
  = acc ++ filter (fun x => execKey x ∉ seen) (firstOccurrences l).
Proof.
  revert seen acc. induction l as [|e rest IH]; intros seen acc; simpl.
  - now rewrite app_nil_r.
  - destruct (decide (execKey e ∈ seen)) as [Hin|Hnotin].
    + rewrite IH. f_equal.
      rewrite filter_cons_False by (intros Hn; now apply Hn).
      rewrite list_filter_filter. apply list_filter_iff.
      intros x. split; [|now intros [Hx _]]. intros Hx. split; [exact Hx|].
      intros Heq. apply Hx. now rewrite Heq.
    + rewrite IH, <- app_assoc. simpl. f_equal.
      rewrite filter_cons_True by exact Hnotin. f_equal.
      rewrite list_filter_filter. apply list_filter_iff.
      intros x. rewrite not_elem_of_union, not_elem_of_singleton. tauto.
Qed.

Lemma filter_everything {A} (P : A -> Prop) `{forall x, Decision (P x)} (l : list A) :
  (forall x, P x) -> filter P l = l.
Proof.
  intros HP. induction l as [|x l IH]; [reflexivity|].
  rewrite filter_cons_True by apply HP. now rewrite IH.
Qed.

Lemma mergeResults_concat (results : list (list ExecutableInfo.t))
    (st : gset string * list ExecutableInfo.t) :
  mergeResults results st = fold_left addExecutable (concat results) st.
Proof.
  unfold mergeResults. revert st.
  induction results as [|l results IH]; intros st; simpl; [reflexivity|].
  now rewrite IH, fold_left_app.
Qed.

(** The two loops compute the first occurrences of the scanned records. *)
Lemma mergeResults_firstOccurrences (results : list (list ExecutableInfo.t)) :
  snd (mergeResults results (∅, [])) = firstOccurrences (concat results).
Proof.
  rewrite mergeResults_concat, fold_addExecutable. simpl.
  apply filter_everything. intros x. set_solver.
Qed.

Lemma firstOccurrences_sublist (l : list ExecutableInfo.t) :
  firstOccurrences l `sublist_of` l.
Proof.
  induction l as [|e rest IH]; simpl; [constructor|].
  apply sublist_skip. etransitivity; [apply sublist_filter | exact IH].
Qed.

Lemma firstOccurrences_NoDup (l : list ExecutableInfo.t) :
  NoDup (execKey <$> firstOccurrences l).
Proof.
  induction l as [|e rest IH]; simpl; [constructor|].
  rewrite ?fmap_cons. constructor.
  - rewrite list_elem_of_fmap. intros (x & Hkey & Hx).
    apply list_elem_of_filter in Hx as [Hne _]. congruence.
  - apply (sublist_NoDup _ _ IH).
    apply fmap_sublist, sublist_filter.
Qed.

(** A record with no earlier record of the same key is kept. *)
Lemma firstOccurrences_keeps (before after : list ExecutableInfo.t) (e : ExecutableInfo.t) :
  execKey e ∉ (execKey <$> before) ->
  e ∈ firstOccurrences (before ++ e :: after).
Proof.
  induction before as [|b before IH]; simpl; intros Hfresh.
  - apply elem_of_cons. now left.
  - rewrite ?fmap_cons, not_elem_of_cons in Hfresh. destruct Hfresh as [Hne Hfresh].
    apply elem_of_cons. right. apply list_elem_of_filter. split; [exact Hne|].
    now apply IH.
Qed.

(** Every scanned record has its earliest same-key record in the result. *)
Lemma firstOccurrences_earliest (l : list ExecutableInfo.t) (e : ExecutableInfo.t) :
  e ∈ l ->
  exists before first after,
    l = before ++ first :: after
    /\ execKey first = execKey e
    /\ (execKey e ∉ (execKey <$> before))
    /\ first ∈ firstOccurrences l.
Proof.
  induction l as [|x l IH]; intros Hin; [now apply elem_of_nil in Hin|].
  destruct (decide (execKey x = execKey e)) as [Heq|Hne].
  - exists [], x, l. repeat split; [exact Heq | | ].
    + simpl. apply not_elem_of_nil.
    + simpl. apply elem_of_cons. now left.
  - apply elem_of_cons in Hin as [->|Hin]; [congruence|].
    destruct (IH Hin) as (before & first & after & -> & Hkey & Hfresh & Hkept).
    exists (x :: before), first, after. repeat split; [exact Hkey | | ].
    + rewrite ?fmap_cons, not_elem_of_cons. split; [congruence | exact Hfresh].
    + simpl. apply elem_of_cons. right. apply list_elem_of_filter.
      split; [congruence | exact Hkept].
Qed.

Lemma NoDup_fmap_eq {A B} (f : A -> B) (l : list A) (x y : A) :
  NoDup (f <$> l) -> x ∈ l -> y ∈ l -> f x = f y -> x = y.
Proof.
  induction l as [|a l IH]; intros Hnd Hx Hy Hf; [now apply elem_of_nil in Hx|].
  rewrite ?fmap_cons in Hnd. apply NoDup_cons in Hnd as [Hfresh Hnd].
  apply elem_of_cons in Hx as [->|Hx]; apply elem_of_cons in Hy as [->|Hy].
  - reflexivity.
  - exfalso. apply Hfresh. rewrite Hf. now apply list_elem_of_fmap_2.
  - exfalso. apply Hfresh. rewrite <- Hf. now apply list_elem_of_fmap_2.
  - now apply IH.
Qed.

Lemma NoDup_namePath (l : list ExecutableInfo.t) :
  NoDup (execKey <$> l) -> NoDup (namePath <$> l).
Proof.
  induction l as [|a l IH]; intros Hnd; [constructor|].
  rewrite ?fmap_cons in *. apply NoDup_cons in Hnd as [Hfresh Hnd].
  constructor; [|now apply IH].
  rewrite list_elem_of_fmap. intros (b & Hab & Hb). apply Hfresh.
  rewrite (execKey_namePath a b Hab). now apply list_elem_of_fmap_2.
Qed.

(** Names without a colon make the key faithful. *)
Lemma split_at_colon (n1 n2 p1 p2 : string) :
  Js.hasUnit ":" n1 = false -> Js.hasUnit ":" n2 = false ->
  n1 +:+ ":" +:+ p1 = n2 +:+ ":" +:+ p2 -> n1 = n2 /\ p1 = p2.
Proof.
  revert n2. induction n1 as [|c n1 IH]; intros [|d n2]; simpl; intros H1 H2 Heq.
  - now injection Heq.
  - injection Heq as <- _. discriminate.
  - injection Heq as -> _. discriminate.
  - injection Heq as -> Heq.
    apply orb_false_iff in H1 as [_ H1]. apply orb_false_iff in H2 as [_ H2].
    destruct (IH n2 H1 H2 Heq) as [-> ->]. easy.
Qed.

Lemma keyFaithful_colon_free (l : list ExecutableInfo.t) :
  Forall (fun e => Js.hasUnit ":" (ExecutableInfo.name e) = false) l ->
  keyFaithful l.
Proof.
  intros Hfree a b Ha Hb Hkey. rewrite Forall_forall in Hfree.
  unfold execKey in Hkey. unfold namePath.
  destruct (split_at_colon _ _ _ _ (Hfree a Ha) (Hfree b Hb) Hkey) as [-> ->].
  reflexivity.
Qed.

End DedupFacts.

(** C3.  [scanAllPathDirectories] resolves to a list [out] built from the
    scans of the search-path directories, taken in search-path order and
    concatenated into [scanned]:
    - no key, and no (name, path) pair, occurs twice in [out];
    - [out] is a subsequence of [scanned], namely its first occurrences;
    - a scanned record with no earlier record of the same key is in [out],
      and it is the only entry of [out] with that key, so every later
      record with that key is dropped;
    - two scanned records with the same name and different paths have
      different keys, and [out] has a separate entry for each; where the
      key tells (name, path) pairs apart, both pairs occur in [out]. *)
Theorem scanAllPathDirectories_dedup (h : Host) :
  exists results out,
    promiseAll (scanDirectory h) (parsePath h) = Return results
    /\ Forall2 (fun dir executables => scanDirectory h dir = Return executables)
         (parsePath h) results
    /\ scanAllPathDirectories h = Return out
    /\ let scanned := concat results in
       NoDup (execKey <$> out)
       /\ NoDup (Dedup.namePath <$> out)
       /\ out `sublist_of` scanned
       /\ out = Dedup.firstOccurrences scanned
       /\ (forall before e after,
             scanned = before ++ e :: after ->
             execKey e ∉ (execKey <$> before) ->
             e ∈ out /\ forall e', e' ∈ out -> execKey e' = execKey e -> e' = e)
       /\ (forall e, e ∈ scanned -> exists kept, kept ∈ out /\ execKey kept = execKey e)
       /\ (forall e1 e2,
             e1 ∈ scanned -> e2 ∈ scanned ->
             ExecutableInfo.name e1 = ExecutableInfo.name e2 ->
             ExecutableInfo.path e1 ≠ ExecutableInfo.path e2 ->
             execKey e1 ≠ execKey e2
             /\ (exists kept1 kept2,
                   kept1 ∈ out /\ kept2 ∈ out /\ kept1 ≠ kept2
                   /\ execKey kept1 = execKey e1 /\ execKey kept2 = execKey e2)
             /\ (Dedup.keyFaithful scanned ->
                 Dedup.namePath e1 ∈ (Dedup.namePath <$> out)
                 /\ Dedup.namePath e2 ∈ (Dedup.namePath <$> out))).
Proof.
  destruct (promiseAll_returns (scanDirectory h) (parsePath h)
              (scanDirectory_returns h)) as (results & Hresults & Hall).
  exists results, (Dedup.firstOccurrences (concat results)).
  split; [exact Hresults|]. split; [exact Hall|]. split.
  { unfold scanAllPathDirectories. rewrite Hresults. simpl.
    now rewrite DedupFacts.mergeResults_firstOccurrences. }
  cbn zeta. set (scanned := concat results).
  pose proof (DedupFacts.firstOccurrences_NoDup scanned) as Hnodup.
  assert (Hkept : forall e, e ∈ scanned ->
            exists kept, kept ∈ Dedup.firstOccurrences scanned /\ execKey kept = execKey e).
  { intros e He.
    destruct (DedupFacts.firstOccurrences_earliest scanned e He)
      as (_ & first & _ & _ & Hkey & _ & Hin).
    now exists first. }
  split; [exact Hnodup|].
  split; [now apply DedupFacts.NoDup_namePath|].
  split; [apply DedupFacts.firstOccurrences_sublist|].
  split; [reflexivity|].
  split; [|split; [exact Hkept|]].
  - intros before e after Hsplit Hfresh.
    assert (He : e ∈ Dedup.firstOccurrences scanned)
      by (rewrite Hsplit; now apply DedupFacts.firstOccurrences_keeps).
    split; [exact He|]. intros e' He' Hkey.
    exact (DedupFacts.NoDup_fmap_eq execKey _ e' e Hnodup He' He Hkey).
  - intros e1 e2 He1 He2 Hname Hpath.
    pose proof (DedupFacts.execKey_same_name e1 e2 Hname Hpath) as Hkeys.
    destruct (Hkept e1 He1) as (kept1 & Hin1 & Hkey1).
    destruct (Hkept e2 He2) as (kept2 & Hin2 & Hkey2).
    pose proof (elem_of_sublist _ _ kept1 Hin1 (DedupFacts.firstOccurrences_sublist scanned))
      as Hscanned1.
    pose proof (elem_of_sublist _ _ kept2 Hin2 (DedupFacts.firstOccurrences_sublist scanned))
      as Hscanned2.
    split; [exact Hkeys|]. split.
    + exists kept1, kept2. repeat split; try assumption.
      intros ->. congruence.
    + intros Hfaithful. split.
      * rewrite <- (Hfaithful kept1 e1 Hscanned1 He1 Hkey1).
        now apply list_elem_of_fmap_2.
      * rewrite <- (Hfaithful kept2 e2 Hscanned2 He2 Hkey2).
        now apply list_elem_of_fmap_2.
Qed.

(** On the sample Linux host /usr/bin is listed twice in the search path
    and both /usr/bin and /opt/tools hold a git: the second scan of
    /usr/bin adds nothing, and both git records are in the result. *)
Lemma scanAllPathDirectories_dedup_witness :
  exists out,
    scanAllPathDirectories Sample.linux = Return out
    /\ ("git", "/usr/bin/git") ∈ (Dedup.namePath <$> out)
    /\ ("git", "/opt/tools/git") ∈ (Dedup.namePath <$> out).
Proof.
  destruct (scanAllPathDirectories_dedup Sample.linux)
    as (results & out & Hresults & _ & Hout & Hprops).
  cbn zeta in Hprops. destruct Hprops as (_ & _ & _ & _ & _ & _ & Hsame).
  vm_compute in Hresults. injection Hresults as Hr. subst results.
  exists out. split; [exact Hout|].
  apply (Hsame (ExecutableInfo.mk "git" "/usr/bin/git" "/usr/bin")
               (ExecutableInfo.mk "git" "/opt/tools/git" "/opt/tools")).
  - simpl. apply elem_of_cons. now left.
  - simpl. apply elem_of_cons. right. apply elem_of_cons. now left.
  - reflexivity.
  - discriminate.
  - apply DedupFacts.keyFaithful_colon_free. simpl. repeat constructor.
Defined.

(** ** Facts about [spreadSet] and the directory sweep *)

Module FinderFacts.

Lemma fold_setAdd (xs : list string) (members : gset string) (order : list string) :
  snd (fold_left setAdd xs (members, order))
  = order ++ filter (fun y => y ∉ members) (firstUnique xs).
Proof.
  revert members order. induction xs as [|x rest IH]; intros members order; simpl.
  - now rewrite app_nil_r.
  - destruct (decide (x ∈ members)) as [Hin|Hnotin].
    + rewrite IH. f_equal.
      rewrite filter_cons_False by (intros Hn; now apply Hn).
      rewrite list_filter_filter. apply list_filter_iff.
      intros y. split; [|now intros [Hy _]]. intros Hy. split; [exact Hy|].
      intros ->. now apply Hy.
    + rewrite IH, <- app_assoc. simpl. f_equal.
      rewrite filter_cons_True by exact Hnotin. f_equal.
      rewrite list_filter_filter. apply list_filter_iff.
      intros y. rewrite not_elem_of_union, not_elem_of_singleton. tauto.
Qed.

Lemma spreadSet_firstUnique (xs : list string) : spreadSet xs = firstUnique xs.
Proof.
  unfold spreadSet. rewrite fold_setAdd. simpl.
  apply DedupFacts.filter_everything. intros y. apply not_elem_of_empty.
Qed.

Lemma elem_of_firstUnique (xs : list string) (x : string) :
  x ∈ firstUnique xs <-> x ∈ xs.
Proof.
  induction xs as [|y rest IH]; simpl; [reflexivity|].
  rewrite !elem_of_cons, list_elem_of_filter, IH.
  destruct (decide (x = y)); tauto.
Qed.

Lemma firstUnique_NoDup (xs : list string) : NoDup (firstUnique xs).
Proof.
  induction xs as [|y rest IH]; simpl; [constructor|].
  constructor.
  - rewrite list_elem_of_filter. now intros [Hne _].
  - now apply NoDup_filter.
Qed.

Lemma firstUnique_app (xs ys : list string) :
  firstUnique (xs ++ ys)
  = firstUnique xs ++ filter (fun y => y ∉ xs) (firstUnique ys).
Proof.
  induction xs as [|x rest IH]; simpl.
  - symmetry. apply DedupFacts.filter_everything. intros y. apply not_elem_of_nil.
  - f_equal. rewrite IH, filter_app. f_equal.
    rewrite list_filter_filter. apply list_filter_iff.
    intros y. rewrite not_elem_of_cons. tauto.
Qed.

Lemma promiseAll_map {A B} (f : A -> Exc B) (g : A -> B) (xs : list A) :
  (forall x, f x = Return (g x)) -> promiseAll f xs = Return (map g xs).
Proof.
  intros Hf. induction xs as [|x rest IH]; simpl; [reflexivity|].
  now rewrite Hf, IH.
Qed.

Lemma fold_push_all (results : list (list string)) (paths : list string) :
  fold_left (fun paths dirPaths => paths ++ dirPaths) results paths
  = paths ++ concat results.
Proof.
  revert paths. induction results as [|r rest IH]; intros paths; simpl.
  - now rewrite app_nil_r.
  - now rewrite IH, app_assoc.
Qed.

Lemma isExecutable_executableAt (h : Host) (filePath : string) :
  isExecutable h filePath = Return (executableAt h filePath).
Proof.
  unfold executableAt.
  destruct (isExecutable_returns h filePath) as [b Hb]. now rewrite Hb.
Qed.

Lemma sweepFiles_hits (h : Host) (toolName : string) (paths : list string)
    (dir : string) (files foundPaths : list string) :
  sweepFiles h toolName paths dir files foundPaths
  = Return (foundPaths ++
      map (fun file => normalizePath h (path_join h dir file))
        (List.filter
           (fun file =>
              namesTool h toolName file
              && (negb (arrayIncludes paths (normalizePath h (path_join h dir file)))
                  && executableAt h (path_join h dir file)))
           files)).
Proof.
  revert foundPaths. induction files as [|file rest IH]; intros foundPaths.
  - simpl. now rewrite app_nil_r.
  - cbn [sweepFiles List.filter]. fold (namesTool h toolName file).
    destruct (namesTool h toolName file); cbn [andb].
    + rewrite isExecutable_executableAt. cbn [bindExc].
      destruct (negb (arrayIncludes paths _) && executableAt h _).
      * rewrite IH, <- app_assoc. reflexivity.
      * apply IH.
    + apply IH.
Qed.

Lemma sweepDirectory_hits (h : Host) (toolName : string) (paths : list string)
    (dir : string) :
  sweepDirectory h toolName paths dir = Return (sweepHits h toolName paths dir).
Proof.
  unfold sweepDirectory, sweepHits.
  destruct (fs_access h dir) as [[]|e]; [|reflexivity].
  destruct (fs_readdir h dir) as [files|e]; [|reflexivity].
  cbn [bindExc]. rewrite sweepFiles_hits. reflexivity.
Qed.

Lemma findAllInstallations_value (h : Host) (toolName : string) :
  findAllInstallations h toolName
  = Return (firstUnique
      (getAllToolPaths h toolName
       ++ concat (map (sweepHits h toolName (getAllToolPaths h toolName)) (parsePath h)))).
Proof.
  unfold findAllInstallations. cbn [app].
  rewrite (promiseAll_map _ (sweepHits h toolName (getAllToolPaths h toolName)))
    by apply sweepDirectory_hits.
  cbn [bindExc]. now rewrite fold_push_all, spreadSet_firstUnique.
Qed.

Lemma elem_of_sweepHits (h : Host) (toolName : string) (paths : list string)
    (dir p : string) :
  p ∈ sweepHits h toolName paths dir <->
  exists files file,
    (exists u, fs_access h dir = Return u)
    /\ fs_readdir h dir = Return files
    /\ file ∈ files
    /\ namesTool h toolName file = true
    /\ (p ∉ paths)
    /\ isExecutable h (path_join h dir file) = Return true
    /\ p = normalizePath h (path_join h dir file).
Proof.
  unfold sweepHits.
  destruct (fs_access h dir) as [u|e].
  2:{ split; [intros H; now apply elem_of_nil in H|].
      intros (files & file & [u Hu] & _). discriminate. }
  destruct (fs_readdir h dir) as [files|e].
  2:{ split; [intros H; now apply elem_of_nil in H|].
      intros (files & file & _ & Hr & _). discriminate. }
  rewrite list_elem_of_In, in_map_iff. split.
  - intros (file & <- & Hfile). apply filter_In in Hfile as [Hin Hcond].
    apply andb_true_iff in Hcond as [Hname Hcond].
    apply andb_true_iff in Hcond as [Hfresh Hexec].
    exists files, file. split; [eauto|]. split; [reflexivity|].
    split; [now apply list_elem_of_In|]. split; [exact Hname|].
    split; [|split; [|reflexivity]].
    + intros Hp. apply negb_true_iff in Hfresh.
      assert (arrayIncludes paths (normalizePath h (path_join h dir file)) = true)
        by (apply arrayIncludes_In; now apply list_elem_of_In).
      congruence.
    + now rewrite isExecutable_executableAt, Hexec.
  - intros (files' & file & _ & [= <-] & Hin & Hname & Hfresh & Hexec & ->).
    exists file. split; [reflexivity|]. apply filter_In.
    split; [now apply list_elem_of_In|].
    rewrite Hname. cbn [andb]. apply andb_true_iff. split.
    + apply negb_true_iff. destruct (arrayIncludes paths _) eqn:Hinc; [|reflexivity].
      exfalso. apply Hfresh. apply list_elem_of_In. now apply arrayIncludes_In.
    + rewrite isExecutable_executableAt in Hexec. now injection Hexec.
Qed.

End FinderFacts.

(** ** Properties of [findAllInstallations] *)

(** X1.  [findAllInstallations] always resolves, whatever the file system
    does, and the list it resolves to has no path twice. *)
Theorem findAllInstallations_distinct (h : Host) (toolName : string) :
  exists out, findAllInstallations h toolName = Return out /\ NoDup out.
Proof.
  eexists. split; [apply FinderFacts.findAllInstallations_value|].
  apply FinderFacts.firstUnique_NoDup.
Qed.

(** X2.  The paths of the fast lookup come first, each at its first
    occurrence, followed by paths the lookup did not report: every lookup
    path is in the result and the first lookup path is the first result. *)
Theorem findAllInstallations_keeps_lookup (h : Host) (toolName : string) :
  exists out swept,
    findAllInstallations h toolName = Return out
    /\ out = firstUnique (getAllToolPaths h toolName) ++ swept
    /\ (forall p, p ∈ getAllToolPaths h toolName -> p ∈ out)
    /\ (forall p, p ∈ swept -> p ∉ getAllToolPaths h toolName)
    /\ (forall p ps, getAllToolPaths h toolName = p :: ps -> head out = Some p).
Proof.
  eexists. eexists. split; [apply FinderFacts.findAllInstallations_value|].
  rewrite FinderFacts.firstUnique_app. split; [reflexivity|]. split; [|split].
  - intros p Hp. apply elem_of_app. left. now apply FinderFacts.elem_of_firstUnique.
  - intros p Hp. now apply list_elem_of_filter in Hp as [Hfresh _].
  - intros p ps ->. reflexivity.
Qed.

(** X3.  Every path of the result is a lookup path or the normalized path
    of an entry of a search-path directory that could be listed, whose
    base name is the tool's name up to case and which is executable. *)
Theorem findAllInstallations_sound (h : Host) (toolName : string)
    (out : list string) (p : string) :
  findAllInstallations h toolName = Return out ->
  p ∈ out ->
  p ∈ getAllToolPaths h toolName
  \/ exists dir files file,
       dir ∈ parsePath h
       /\ fs_readdir h dir = Return files
       /\ file ∈ files
       /\ namesTool h toolName file = true
       /\ isExecutable h (path_join h dir file) = Return true
       /\ p = normalizePath h (path_join h dir file).
Proof.
  rewrite FinderFacts.findAllInstallations_value. intros [= <-] Hp.
  rewrite FinderFacts.elem_of_firstUnique in Hp.
  apply elem_of_app in Hp as [Hp|Hp]; [now left | right].
  apply list_elem_of_In, in_concat in Hp as (hits & Hhits & Hp).
  apply in_map_iff in Hhits as (dir & <- & Hdir).
  apply list_elem_of_In, FinderFacts.elem_of_sweepHits in Hp
    as (files & file & _ & Hread & Hfile & Hname & _ & Hexec & ->).
  exists dir, files, file. repeat split; try assumption.
  now apply list_elem_of_In.
Qed.

(** On the sample Linux host the lookup knows no 'GIT'; the two paths
    found are entries named git of /usr/bin and /opt/tools. *)
Lemma findAllInstallations_sound_witness :
  "/opt/tools/git" ∈ getAllToolPaths Sample.linux "GIT"
  \/ exists dir files file,
       dir ∈ parsePath Sample.linux
       /\ fs_readdir Sample.linux dir = Return files
       /\ file ∈ files
       /\ namesTool Sample.linux "GIT" file = true
       /\ isExecutable Sample.linux (path_join Sample.linux dir file) = Return true
       /\ "/opt/tools/git" = normalizePath Sample.linux (path_join Sample.linux dir file).
Proof.
  apply (findAllInstallations_sound Sample.linux "GIT"
           ["/usr/bin/git"; "/opt/tools/git"]).
  - vm_compute. reflexivity.
  - apply elem_of_cons. right. apply elem_of_cons. now left.
Defined.

(** X4.  An executable entry of a listable search-path directory whose
    base name is the tool's name up to case is in the result, by its
    normalized path. *)
Theorem findAllInstallations_complete (h : Host) (toolName dir file : string)
    (files : list string) (u : unit) :
  dir ∈ parsePath h ->
  fs_access h dir = Return u ->
  fs_readdir h dir = Return files ->
  file ∈ files ->
  namesTool h toolName file = true ->
  isExecutable h (path_join h dir file) = Return true ->
  exists out,
    findAllInstallations h toolName = Return out
    /\ normalizePath h (path_join h dir file) ∈ out.
Proof.
  intros Hdir Haccess Hread Hfile Hname Hexec.
  eexists. split; [apply FinderFacts.findAllInstallations_value|].
  apply FinderFacts.elem_of_firstUnique, elem_of_app.
  destruct (decide (normalizePath h (path_join h dir file) ∈ getAllToolPaths h toolName))
    as [Hin|Hfresh]; [now left | right].
  apply list_elem_of_In, in_concat.
  exists (sweepHits h toolName (getAllToolPaths h toolName) dir). split.
  - apply in_map. now apply list_elem_of_In.
  - apply list_elem_of_In, FinderFacts.elem_of_sweepHits.
    exists files, file. repeat split; eauto.
Qed.

Lemma findAllInstallations_complete_witness :
  exists out,
    findAllInstallations Sample.linux "Git" = Return out
    /\ "/opt/tools/git" ∈ out.
Proof.
  apply (findAllInstallations_complete Sample.linux "Git" "/opt/tools" "git" ["git"] tt).
  - vm_compute. apply elem_of_cons. right. apply elem_of_cons. now left.
  - reflexivity.
  - reflexivity.
  - apply elem_of_cons. now left.
  - reflexivity.
  - reflexivity.
Defined.

(** X5.  When no search-path directory can be accessed and listed (in
    particular when the search path is empty), the result is the lookup's
    paths, each at its first occurrence. *)
Theorem findAllInstallations_without_sweep (h : Host) (toolName : string) :
  Forall (fun dir => (exists e, fs_access h dir = Throw e)
                     \/ (exists e, fs_readdir h dir = Throw e)) (parsePath h) ->
  findAllInstallations h toolName = Return (firstUnique (getAllToolPaths h toolName)).
Proof.
  intros Hfail. rewrite FinderFacts.findAllInstallations_value. f_equal.
  rewrite <- (app_nil_r (getAllToolPaths h toolName)) at 3. do 2 f_equal.
  induction Hfail as [|dir dirs Hdir _ IH]; [reflexivity|].
  cbn [map concat]. rewrite IH, app_nil_r.
  unfold sweepHits. destruct Hdir as [[e ->]|[e ->]]; [reflexivity|].
  now destruct (fs_access h dir).
Qed.

(** On the stranded host /missing does not exist and /root/bin cannot be
    listed: the doubled lookup path of 'dup' is reported once. *)
Lemma findAllInstallations_without_sweep_witness :
  findAllInstallations MoreSamples.stranded "dup"
  = Return (firstUnique (getAllToolPaths MoreSamples.stranded "dup"))
  /\ firstUnique (getAllToolPaths MoreSamples.stranded "dup") = ["/usr/bin/dup"].
Proof.
  split; [|reflexivity].
  apply (findAllInstallations_without_sweep MoreSamples.stranded "dup").
  change (parsePath MoreSamples.stranded) with ["/missing"; "/root/bin"].
  constructor; [left; now exists ENOENT|].
  constructor; [right; now exists EACCES|].
  constructor.
Defined.

(** ** Properties of [detectCLITools] *)

(** X6.  [detectCLITools] gives one record per requested name, in the
    order of the request and carrying that name, each the record
    [getExtendedToolInfo] gives; a name requested twice is reported twice. *)
Theorem detectCLITools_one_per_name (h : Host) (toolNames : list string) :
  detectCLITools h toolNames = map (getExtendedToolInfo h) toolNames
  /\ length (detectCLITools h toolNames) = length toolNames
  /\ map ExtendedToolInfo.name (detectCLITools h toolNames) = toolNames
  /\ (forall i toolName, toolNames !! i = Some toolName ->
        detectCLITools h toolNames !! i = Some (getExtendedToolInfo h toolName)).
Proof.
  assert (Hmap : detectCLITools h toolNames = map (getExtendedToolInfo h) toolNames).
  { unfold detectCLITools.
    enough (Hgen : forall acc,
              fold_left (fun results toolName => results ++ [getExtendedToolInfo h toolName])
                toolNames acc = acc ++ map (getExtendedToolInfo h) toolNames)
      by apply (Hgen []).
    induction toolNames as [|t rest IH]; intros acc; simpl.
    - now rewrite app_nil_r.
    - now rewrite IH, <- app_assoc. }
  rewrite Hmap. split; [reflexivity|]. split; [now rewrite length_map|]. split.
  - rewrite map_map. simpl. apply map_id.
  - intros i toolName Hi. change (map ?f ?l) with (f <$> l).
    now rewrite list_lookup_fmap, Hi.
Qed.

Lemma detectCLITools_one_per_name_witness :
  detectCLITools Sample.linux ["git"; "nothing"; "git"] !! 2%nat
  = Some (getExtendedToolInfo Sample.linux "git").
Proof.
  apply (proj2 (proj2 (proj2
    (detectCLITools_one_per_name Sample.linux ["git"; "nothing"; "git"])))).
  reflexivity.
Defined.

(** ** Further properties of [scanDirectory] and [scanAllPathDirectories] *)

Module ScanFacts.

(** What [scanDirectory] resolves to: nothing, or the records of the
    executable entries of the listing. *)
Lemma scanDirectory_cases (h : Host) (directory : string) (out : list ExecutableInfo.t) :
  scanDirectory h directory = Return out ->
  out = []
  \/ exists files,
       fs_readdir h directory = Return files
       /\ out = map (recordOf h directory)
                  (List.filter (fun file => executableAt h (path_join h directory file))
                     files).
Proof.
  destruct (fs_access h directory) as [[]|e] eqn:Haccess.
  - destruct (fs_readdir h directory) as [files|e] eqn:Hread.
    + rewrite (scanDirectory_listing h directory files Haccess Hread).
      intros [= <-]. right. exists files. split; reflexivity.
    + unfold scanDirectory, scanListing. rewrite Haccess, Hread.
      intros [= <-]. now left.
  - unfold scanDirectory. rewrite Haccess. intros [= <-]. now left.
Qed.

Lemma executableAt_true (h : Host) (filePath : string) :
  executableAt h filePath = true <-> isExecutable h filePath = Return true.
Proof.
  rewrite FinderFacts.isExecutable_executableAt. split; [now intros ->|].
  now intros [= ->].
Qed.

Lemma elem_of_records (h : Host) (directory : string) (files : list string)
    (r : ExecutableInfo.t) :
  r ∈ map (recordOf h directory)
        (List.filter (fun file => executableAt h (path_join h directory file)) files)
  <-> exists file,
        file ∈ files
        /\ isExecutable h (path_join h directory file) = Return true
        /\ r = recordOf h directory file.
Proof.
  rewrite list_elem_of_In, in_map_iff. split.
  - intros (file & <- & Hfile). apply filter_In in Hfile as [Hin Hexec].
    exists file. split; [now apply list_elem_of_In|].
    split; [now apply executableAt_true | reflexivity].
  - intros (file & Hin & Hexec & ->). exists file. split; [reflexivity|].
    apply filter_In. split; [now apply list_elem_of_In | now apply executableAt_true].
Qed.

End ScanFacts.

(** X7.  When the directory can be accessed and listed, [scanDirectory]
    resolves to one record per executable entry, in listing order: the
    records' paths are the normalized joined paths of exactly the entries
    for which [isExecutable] is true, so there are no more records than
    entries. *)
Theorem scanDirectory_one_per_executable (h : Host) (directory : string)
    (files : list string) (u : unit) :
  fs_access h directory = Return u ->
  fs_readdir h directory = Return files ->
  exists out,
    scanDirectory h directory = Return out
    /\ map ExecutableInfo.path out
       = map (fun file => normalizePath h (path_join h directory file))
           (List.filter (fun file => executableAt h (path_join h directory file)) files)
    /\ (length out <= length files)%nat
    /\ (forall file, file ∈ files ->
          isExecutable h (path_join h directory file) = Return true ->
          exists r, r ∈ out
            /\ ExecutableInfo.path r = normalizePath h (path_join h directory file))
    /\ (Forall (fun file => isExecutable h (path_join h directory file) = Return false)
          files -> out = []).
Proof.
  intros Haccess Hread. destruct u.
  eexists. split; [apply (scanDirectory_listing h directory files Haccess Hread)|].
  fold (executableAt h). split; [|split; [|split]].
  - rewrite map_map. reflexivity.
  - rewrite length_map. apply List.filter_length_le.
  - intros file Hfile Hexec. exists (recordOf h directory file). split; [|reflexivity].
    apply (ScanFacts.elem_of_records h directory files). eauto.
  - intros Hnone.
    replace (List.filter _ files) with (@nil string); [reflexivity|].
    clear Hread. induction Hnone as [|file rest Hfile _ IH]; [reflexivity|].
    cbn [List.filter]. now rewrite Hfile.
Qed.

Lemma scanDirectory_one_per_executable_witness :
  exists out,
    scanDirectory Sample.win32 "C:/bin" = Return out
    /\ map ExecutableInfo.path out = ["C:/bin/tool.exe"; "C:/bin/run.CMD"].
Proof.
  destruct (scanDirectory_one_per_executable Sample.win32 "C:/bin"
              ["tool.exe"; "tool.txt"; "run.CMD"] tt eq_refl eq_refl)
    as (out & Hout & Hpaths & _).
  exists out. split; [exact Hout | exact Hpaths].
Defined.

(** X8.  Every record [scanDirectory] returns has the normalized
    directory as its directory and a lower-case name, and stands for an
    entry of the listing that [isExecutable] accepts; off Windows the
    name is the entry's file name in lower case, extension included. *)
Theorem scanDirectory_record_shape (h : Host) (directory : string)
    (out : list ExecutableInfo.t) (r : ExecutableInfo.t) :
  scanDirectory h directory = Return out ->
  r ∈ out ->
  ExecutableInfo.directory r = normalizePath h directory
  /\ Js.toLowerCase (ExecutableInfo.name r) = ExecutableInfo.name r
  /\ exists files file,
       fs_readdir h directory = Return files
       /\ file ∈ files
       /\ isExecutable h (path_join h directory file) = Return true
       /\ ExecutableInfo.path r = normalizePath h (path_join h directory file)
       /\ (isWindows h = false -> ExecutableInfo.name r = Js.toLowerCase file).
Proof.
  intros Hscan Hr.
  destruct (ScanFacts.scanDirectory_cases h directory out Hscan) as [->|(files & Hread & ->)].
  - now apply elem_of_nil in Hr.
  - apply ScanFacts.elem_of_records in Hr as (file & Hfile & Hexec & ->).
    split; [reflexivity|]. split; [apply JsFacts.toLowerCase_idem|].
    exists files, file. repeat split; try assumption.
    intros Hposix. unfold recordOf. now rewrite Hposix.
Qed.

Lemma scanDirectory_record_shape_witness :
  let r := ExecutableInfo.mk "git" "/usr/bin/git" "/usr/bin" in
  ExecutableInfo.directory r = "/usr/bin"
  /\ Js.toLowerCase (ExecutableInfo.name r) = ExecutableInfo.name r.
Proof.
  cbn zeta.
  destruct (scanDirectory_record_shape Sample.linux "/usr/bin"
              [ExecutableInfo.mk "git" "/usr/bin/git" "/usr/bin"]
              (ExecutableInfo.mk "git" "/usr/bin/git" "/usr/bin"))
    as (Hdir & Hname & _).
  - reflexivity.
  - apply elem_of_cons. now left.
  - split; [exact Hdir | exact Hname].
Defined.

(** X9.  Every record of [scanAllPathDirectories] is a record of the scan
    of some search-path directory, so its directory is the normalization
    of a search-path entry; with the search path unset or empty the
    result is the empty list. *)
Theorem scanAllPathDirectories_from_search_path (h : Host) :
  (forall out r,
     scanAllPathDirectories h = Return out ->
     r ∈ out ->
     exists dir executables,
       dir ∈ parsePath h
       /\ scanDirectory h dir = Return executables
       /\ r ∈ executables
       /\ ExecutableInfo.directory r = normalizePath h dir)
  /\ (unsetOrEmpty (env_PATH h) -> unsetOrEmpty (env_Path h) ->
      scanAllPathDirectories h = Return []).
Proof.
  split.
  - intros out r Hscan Hr. unfold scanAllPathDirectories in Hscan.
    destruct (promiseAll_returns (scanDirectory h) (parsePath h)
                (scanDirectory_returns h)) as (results & Hresults & Hall).
    rewrite Hresults in Hscan. cbn [bindExc] in Hscan.
    rewrite DedupFacts.mergeResults_firstOccurrences in Hscan.
    injection Hscan as <-.
    pose proof (elem_of_sublist _ _ r Hr (DedupFacts.firstOccurrences_sublist _)) as Hin.
    apply list_elem_of_In, in_concat in Hin as (executables & Hex & Hin).
    clear Hr. rename Hin into Hr.
    apply list_elem_of_In, list_elem_of_lookup in Hex as [i Hi].
    destruct (Forall2_lookup_r _ _ _ _ _ Hall Hi) as (dir & Hdir & Hscan).
    exists dir, executables. split; [now apply (list_elem_of_lookup_2 _ i)|].
    split; [exact Hscan|]. split; [now apply list_elem_of_In|].
    destruct (ScanFacts.scanDirectory_cases h dir executables Hscan)
      as [->|(files & _ & ->)]; [now apply in_nil in Hr|].
    apply list_elem_of_In, ScanFacts.elem_of_records in Hr as (file & _ & _ & ->).
    reflexivity.
  - intros HPATH HPath. unfold scanAllPathDirectories, parsePath.
    now rewrite (orElse_unset _ _ HPATH), (orElse_unset _ _ HPath).
Qed.

Lemma scanAllPathDirectories_from_search_path_witness :
  exists dir,
    dir ∈ parsePath Sample.linux
    /\ "/opt/tools" = normalizePath Sample.linux dir.
Proof.
  destruct (proj1 (scanAllPathDirectories_from_search_path Sample.linux)
              [ExecutableInfo.mk "git" "/usr/bin/git" "/usr/bin";
               ExecutableInfo.mk "git" "/opt/tools/git" "/opt/tools"]
              (ExecutableInfo.mk "git" "/opt/tools/git" "/opt/tools"))
    as (dir & executables & Hdir & _ & _ & Hnorm).
  - vm_compute. reflexivity.
  - apply elem_of_cons. right. apply elem_of_cons. now left.
  - exists dir. split; [exact Hdir | exact Hnorm].
Defined.

(** ** Further properties of [parsePath] *)

Module TrimFacts.
Import Js.










End TrimFacts.



(** X11.  With the search-path variable set, [parsePath] is empty exactly
    when every piece between separators is blank (white space only). *)
Theorem parsePath_empty_iff_blank (h : Host) (value : string) :
  searchPathIs h value ->
  (parsePath h = [] <->
   Forall (fun piece => Js.isBlank piece = true) (Js.split (getPathSeparator h) value)).
Proof.
  intros Hvalue. unfold parsePath. rewrite (pathEnv_value h value Hvalue).
  generalize (Js.split (getPathSeparator h) value) as pieces. intros pieces.
  induction pieces as [|piece rest IH]; simpl.
  - split; [constructor | reflexivity].
  - unfold Js.nonEmpty at 1. rewrite JsFacts.truthy_trim.
    destruct (Js.isBlank piece) eqn:Hblank; simpl.
    + rewrite IH. split; [now constructor | now inversion 1].
    + split; [discriminate|]. inversion 1; congruence.
Qed.

Lemma parsePath_empty_iff_blank_witness :
  parsePath MoreSamples.blank = []
  /\ Forall (fun piece => Js.isBlank piece = true)
       (Js.split (getPathSeparator MoreSamples.blank) " :  ::").
Proof.
  assert (Hiff := parsePath_empty_iff_blank MoreSamples.blank " :  ::").
  destruct Hiff as [Hforward Hbackward].
  - split; [discriminate | left; reflexivity].
  - assert (Hblank : Forall (fun piece => Js.isBlank piece = true)
                       (Js.split (getPathSeparator MoreSamples.blank) " :  ::"))
      by (vm_compute; repeat constructor).
    split; [exact (Hbackward Hblank) | exact Hblank].
Defined.

(** ** Further properties of [identifyInstallMethod] *)

Module ClassifierFacts.

Lemma append_assoc (a b c : string) : (a +:+ b) +:+ c = a +:+ (b +:+ c).
Proof.
  induction a as [|x a IH]; [reflexivity|].
  change (String x ((a +:+ b) +:+ c) = String x (a +:+ (b +:+ c))).
  now rewrite IH.
Qed.

(** A string that contains a text contains every part of that text. *)
Lemma includes_part (s before part after : string) :
  Js.includes s (before +:+ part +:+ after) = true -> Js.includes s part = true.
Proof.
  rewrite !JsFacts.includes_spec. intros (l & r & ->).
  exists (l +:+ before), (after +:+ r).
  now rewrite !append_assoc.
Qed.

Lemma append_nil_r (a : string) : a +:+ "" = a.
Proof.
  induction a as [|x a IH]; [reflexivity|].
  change (String x (a +:+ "") = String x a). now rewrite IH.
Qed.

Lemma includes_middle (before part after : string) :
  Js.includes (before +:+ part +:+ after) part = true.
Proof. apply JsFacts.includes_spec. now exists before, after. Qed.

Lemma includes_suffix (before part : string) :
  Js.includes (before +:+ part) part = true.
Proof.
  rewrite <- (append_nil_r part) at 1. apply includes_middle.
Qed.

Lemma identifyInstallMethod_not_other (h : Host) (p tag : string) :
  identifyInstallMethod h p <> other tag.
Proof.
  unfold identifyInstallMethod.
  destruct (Js.truthy p); cbn [negb]; [|discriminate].
  repeat match goal with
         | |- context [Js.includes ?t ?n] => destruct (Js.includes t n)
         end;
    cbn [orb andb]; try discriminate;
    destruct (String.eqb (platform h) "linux"); discriminate.
Qed.

End ClassifierFacts.

(** Splits [identifyInstallMethod] on the outcome of every substring test. *)
Ltac classify_cases p :=
  unfold identifyInstallMethod;
  destruct (Js.truthy p) eqn:?; cbn [negb];
  [ generalize dependent (Js.toLowerCase p); intros text;
    repeat match goal with
           | |- context [Js.includes text ?n] => destruct (Js.includes text n) eqn:?
           end;
    cbn [orb andb]
  | ].

(** X12.  The classifier only yields one of the six tags, and it yields
    apt only on Linux, for a path whose lower-casing contains /usr/bin. *)
Theorem identifyInstallMethod_apt_only_on_linux (h : Host) (p : string) :
  (forall tag, identifyInstallMethod h p <> other tag)
  /\ (identifyInstallMethod h p = apt ->
      platform h = "linux" /\ Js.includes (Js.toLowerCase p) "/usr/bin" = true)
  /\ (platform h <> "linux" -> identifyInstallMethod h p <> apt).
Proof.
  assert (Hapt : identifyInstallMethod h p = apt ->
                 platform h = "linux" /\ Js.includes (Js.toLowerCase p) "/usr/bin" = true).
  { classify_cases p; try discriminate;
      destruct (String.eqb_spec (platform h) "linux"); try discriminate; now intros _. }
  split; [|split; [exact Hapt|]].
  - intros tag. apply ClassifierFacts.identifyInstallMethod_not_other.
  - intros Hplatform Heq. now destruct (Hapt Heq).
Qed.

Lemma identifyInstallMethod_apt_only_on_linux_witness :
  identifyInstallMethod Sample.darwin "/usr/bin/foo" <> apt.
Proof.
  apply (proj2 (proj2 (identifyInstallMethod_apt_only_on_linux Sample.darwin "/usr/bin/foo"))).
  simpl. discriminate.
Defined.

(** X13.  The host enters the classification only through whether its
    platform is Linux: two hosts that agree on that classify every path
    alike, and a path whose lower-casing does not contain /usr/bin is
    classified alike on all hosts. *)
Theorem identifyInstallMethod_platform_only (h1 h2 : Host) (p : string) :
  (String.eqb (platform h1) "linux" = String.eqb (platform h2) "linux" ->
   identifyInstallMethod h1 p = identifyInstallMethod h2 p)
  /\ (Js.includes (Js.toLowerCase p) "/usr/bin" = false ->
      identifyInstallMethod h1 p = identifyInstallMethod h2 p).
Proof.
  split.
  - intros Hsame. unfold identifyInstallMethod. now rewrite Hsame.
  - intros Hnone. unfold identifyInstallMethod. now rewrite Hnone.
Qed.

Lemma identifyInstallMethod_platform_only_witness :
  identifyInstallMethod Sample.darwin "/usr/bin/foo"
  = identifyInstallMethod Sample.win32 "/usr/bin/foo"
  /\ identifyInstallMethod Sample.linux "/usr/lib/node_modules/x"
     = identifyInstallMethod Sample.win32 "/usr/lib/node_modules/x".
Proof.
  split.
  - apply (proj1 (identifyInstallMethod_platform_only Sample.darwin Sample.win32
                    "/usr/bin/foo")).
    reflexivity.
  - apply (proj2 (identifyInstallMethod_platform_only Sample.linux Sample.win32
                    "/usr/lib/node_modules/x")).
    reflexivity.
Defined.

(** X14.  A path is classified homebrew exactly when its lower-casing
    contains 'homebrew' or '/usr/local/cellar', and chocolatey exactly
    when it contains neither and contains 'choco'; the needles
    '/opt/homebrew' and 'chocolatey' never decide on their own. *)
Theorem identifyInstallMethod_homebrew_chocolatey (h : Host) (p : string) :
  (identifyInstallMethod h p = homebrew <->
     Js.includes (Js.toLowerCase p) "homebrew" = true
     \/ Js.includes (Js.toLowerCase p) "/usr/local/cellar" = true)
  /\ (identifyInstallMethod h p = chocolatey <->
        Js.includes (Js.toLowerCase p) "homebrew" = false
        /\ Js.includes (Js.toLowerCase p) "/usr/local/cellar" = false
        /\ Js.includes (Js.toLowerCase p) "choco" = true).
Proof.
  pose proof (ClassifierFacts.includes_part (Js.toLowerCase p) "/opt/" "homebrew" "")
    as Hopt.
  pose proof (ClassifierFacts.includes_part (Js.toLowerCase p) "" "choco" "latey")
    as Hchoco.
  change ("/opt/" +:+ "homebrew" +:+ "") with "/opt/homebrew" in Hopt.
  change ("" +:+ "choco" +:+ "latey") with "chocolatey" in Hchoco.
  unfold identifyInstallMethod.
  destruct (Js.truthy p) eqn:Htruthy; cbn [negb].
  - generalize dependent (Js.toLowerCase p). intros text Hopt Hchoco.
    destruct (Js.includes text "/opt/homebrew") eqn:H1;
      [rewrite (Hopt eq_refl); cbn [orb]; split; split; intros; try discriminate;
         intuition congruence|].
    destruct (Js.includes text "/usr/local/cellar") eqn:H2;
      [cbn [orb]; split; split; intros; try discriminate; intuition congruence|].
    destruct (Js.includes text "homebrew") eqn:H3;
      [cbn [orb]; split; split; intros; try discriminate; intuition congruence|].
    cbn [orb].
    destruct (Js.includes text "chocolatey") eqn:H4;
      [rewrite (Hchoco eq_refl); cbn [orb]; split; split; intros; try discriminate;
         intuition congruence|].
    destruct (Js.includes text "choco") eqn:H5;
      [cbn [orb]; split; split; intros; try discriminate; intuition congruence|].
    cbn [orb].
    repeat match goal with
           | |- context [Js.includes text ?n] => destruct (Js.includes text n)
           end;
      destruct (String.eqb (platform h) "linux"); cbn [orb andb];
      split; split; intros; try discriminate; intuition congruence.
  - destruct p; [|discriminate]. simpl.
    split; split; intros; try discriminate; intuition congruence.
Qed.

(** ** Further properties of [generateUninstallInstructions] *)

(** X15.  The instructions hold at most one line that is not a comment.
    For a package manager it is the first line; for the manual method
    with a path, off Windows, it is 'sudo rm' followed by the path; for
    the manual method on Windows, or without a path, every line is a
    comment. *)
Theorem generateUninstallInstructions_one_command
    (h : Host) (toolName : string) (m : InstallMethod) (toolPath : string) :
  let lines := generateUninstallInstructions h toolName m toolPath in
  let commands := List.filter (fun line => negb (isComment line)) lines in
  (length commands <= 1)%nat
  /\ (isPackageManager m = true ->
      exists first rest, lines = first :: rest /\ commands = [first])
  /\ (isPackageManager m = false -> toolPath <> "" -> isWindows h = false ->
      commands = ["sudo rm " +:+ toolPath])
  /\ (isPackageManager m = false -> toolPath = "" \/ isWindows h = true ->
      commands = []).
Proof.
  cbn zeta. unfold generateUninstallInstructions.
  destruct m; cbn [isPackageManager app].
  1-5: (split; [vm_compute; lia|]; split; [intros _; eexists; eexists; split;
         [reflexivity | vm_compute; reflexivity]|]; split; discriminate).
  all: destruct toolPath as [|c toolPath]; cbn [Js.truthy];
    [|destruct (isWindows h) eqn:Hwin; cbn [app]].
  all: split; [vm_compute; lia|]; split; [discriminate|]; split.
  all: try (intros _ _ _; vm_compute; reflexivity).
  all: try (intros _ _; vm_compute; reflexivity).
  all: try (intros _ Hne; congruence).
  all: try (intros _ _ Hne; congruence).
  all: intros _ [Hempty|Hwindows]; discriminate.
Qed.

Lemma generateUninstallInstructions_one_command_witness :
  List.filter (fun line => negb (isComment line))
    (generateUninstallInstructions Sample.linux "foo" manual "/opt/foo/bin/foo")
  = ["sudo rm /opt/foo/bin/foo"]
  /\ List.filter (fun line => negb (isComment line))
       (generateUninstallInstructions Sample.win32 "foo" manual "C:/foo.exe")
     = [].
Proof.
  split.
  - apply (proj1 (proj2 (proj2 (generateUninstallInstructions_one_command
             Sample.linux "foo" manual "/opt/foo/bin/foo")))).
    + reflexivity.
    + discriminate.
    + reflexivity.
  - apply (proj2 (proj2 (proj2 (generateUninstallInstructions_one_command
             Sample.win32 "foo" manual "C:/foo.exe")))).
    + reflexivity.
    + right. reflexivity.
Defined.

(** X16.  For a package manager the instructions do not depend on the
    path or on the host, and every line of them names the tool. *)
Theorem generateUninstallInstructions_package_manager
    (h h' : Host) (toolName : string) (m : InstallMethod) (toolPath toolPath' : string) :
  isPackageManager m = true ->
  generateUninstallInstructions h toolName m toolPath
  = generateUninstallInstructions h' toolName m toolPath'
  /\ Forall (fun line => Js.includes line toolName = true)
       (generateUninstallInstructions h toolName m toolPath).
Proof.
  intros Hm. destruct m; try discriminate; (split; [reflexivity|]);
    unfold generateUninstallInstructions; cbn [app];
    repeat constructor;
    first [ apply ClassifierFacts.includes_suffix
          | apply ClassifierFacts.includes_middle ].
Qed.

Lemma generateUninstallInstructions_package_manager_witness :
  generateUninstallInstructions Sample.linux "foo" npm "/usr/lib/node_modules/foo"
  = generateUninstallInstructions Sample.win32 "foo" npm "".
Proof.
  apply (proj1 (generateUninstallInstructions_package_manager
                  Sample.linux Sample.win32 "foo" npm "/usr/lib/node_modules/foo" "" eq_refl)).
Defined.

(** ** Further properties of [getExtendedToolInfo] *)

(** X17.  When the lookup finds no path, the record has no path, is not
    installed, is classified manual and carries the two comments of the
    undetermined case, whatever the version probe reports; the version is
    still the one parsed from the probe's text. *)
Theorem getExtendedToolInfo_not_found (h : Host) (toolName : string) :
  getAllToolPaths h toolName = [] ->
  getExtendedToolInfo h toolName
  = ExtendedToolInfo.mk toolName toolName
      (parseVersion h (getVersionOutput (executeSafe h (toolName +:+ " --version"))))
      None false manual "tool" []
      ["# Unable to determine uninstall method";
       "# Please check your system's package manager"].
Proof.
  intros Hnone. unfold getExtendedToolInfo. rewrite Hnone. reflexivity.
Qed.

Lemma getExtendedToolInfo_not_found_witness :
  ExtendedToolInfo.installMethod (getExtendedToolInfo Sample.linux "nothing") = manual.
Proof.
  rewrite (getExtendedToolInfo_not_found Sample.linux "nothing" eq_refl).
  reflexivity.
Defined.

(** X18.  In every record of [getExtendedToolInfo]: the path is the first
    of [allPaths], absent exactly when [allPaths] is empty; an installed
    tool has a path; the method is one of the six tags, the one its path
    classifies to, and apt only on Linux; the instructions are those of
    that method and path. *)
Theorem getExtendedToolInfo_consistent (h : Host) (toolName : string) :
  let record := getExtendedToolInfo h toolName in
  ExtendedToolInfo.path record = head (ExtendedToolInfo.allPaths record)
  /\ (ExtendedToolInfo.path record = None <-> ExtendedToolInfo.allPaths record = [])
  /\ (ExtendedToolInfo.isInstalled record = true ->
      exists p, ExtendedToolInfo.path record = Some p
                /\ p ∈ ExtendedToolInfo.allPaths record)
  /\ (forall tag, ExtendedToolInfo.installMethod record <> other tag)
  /\ ExtendedToolInfo.installMethod record
     = identifyInstallMethod h (default "" (ExtendedToolInfo.path record))
  /\ ExtendedToolInfo.uninstallInstructions record
     = generateUninstallInstructions h toolName
         (ExtendedToolInfo.installMethod record)
         (default "" (ExtendedToolInfo.path record))
  /\ (ExtendedToolInfo.installMethod record = apt -> platform h = "linux").
Proof.
  cbn zeta. unfold getExtendedToolInfo.
  destruct (getAllToolPaths h toolName) as [|p ps];
    cbn [length Nat.ltb Nat.leb head andb
         ExtendedToolInfo.path ExtendedToolInfo.allPaths ExtendedToolInfo.isInstalled
         ExtendedToolInfo.installMethod ExtendedToolInfo.uninstallInstructions default].
  - repeat split; try discriminate.
  - assert (Horelse : orElse (Some p) "" = p) by (destruct p; reflexivity).
    rewrite Horelse.
    split; [reflexivity|]. split; [split; discriminate|].
    split; [intros _; exists p; split; [reflexivity | apply elem_of_cons; now left]|].
    split; [intros tag; apply ClassifierFacts.identifyInstallMethod_not_other|].
    split; [reflexivity|]. split; [reflexivity|].
    unfold identifyInstallMethod.
    destruct (Js.truthy p); cbn [negb]; [|discriminate].
    repeat match goal with
           | |- context [Js.includes ?t ?n] => destruct (Js.includes t n)
           end;
      cbn [orb andb]; try discriminate;
      destruct (String.eqb_spec (platform h) "linux"); try discriminate; now intros _.
Qed.

Lemma getExtendedToolInfo_consistent_witness :
  exists p,
    ExtendedToolInfo.path (getExtendedToolInfo Sample.linux "git") = Some p
    /\ p ∈ ExtendedToolInfo.allPaths (getExtendedToolInfo Sample.linux "git").
Proof.
  apply (proj1 (proj2 (proj2 (getExtendedToolInfo_consistent Sample.linux "git")))).
  reflexivity.
Defined.

(** ** Properties of [handleOpenConfig] *)

Module RendererFacts.
Import Renderer.

Lemma getSubstitution_plain (matched before after template : string) :
  Js.hasUnit "$" template = false ->
  getSubstitution matched before after template = template.
Proof.
  induction template as [|c rest IH]; simpl; [reflexivity|]. intros H.
  apply orb_false_iff in H as [Hc Hrest]. rewrite Hc. now rewrite IH.
Qed.

Lemma dropUnits_app (pattern after : string) :
  dropUnits (String.length pattern) (pattern +:+ after) = after.
Proof. induction pattern as [|c pattern IH]; [reflexivity | exact IH]. Qed.

Lemma startsWith_append (pattern after : string) :
  Js.startsWith (pattern +:+ after) pattern = true.
Proof. apply JsFacts.startsWith_spec. now exists after. Qed.

(** A prefix test that succeeds on a text succeeds on any beginning of
    the text that is as long as the pattern. *)
Lemma startsWith_long (x y pattern : string) :
  Js.startsWith (x +:+ y) pattern = true ->
  (String.length pattern <= String.length x)%nat ->
  Js.startsWith x pattern = true.
Proof.
  revert x. induction pattern as [|p pattern IH]; intros x; [reflexivity|].
  destruct x as [|a x]; [simpl; lia|].
  change (String a x +:+ y) with (String a (x +:+ y)). simpl.
  destruct (Ascii.eqb a p); [|discriminate].
  intros Hstart Hlen. apply IH; [exact Hstart | lia].
Qed.

Lemma length_append (a b : string) :
  String.length (a +:+ b) = (String.length a + String.length b)%nat.
Proof.
  induction a as [|c a IH]; [reflexivity|].
  change (String c a +:+ b) with (String c (a +:+ b)). simpl. now rewrite IH.
Qed.

Lemma replaceFrom_unfold (before rest searchString replaceValue : string) :
  replaceFrom before rest searchString replaceValue
  = if Js.startsWith rest searchString then
      before +:+ getSubstitution searchString before
                   (dropUnits (String.length searchString) rest) replaceValue
        +:+ dropUnits (String.length searchString) rest
    else
      match rest with
      | EmptyString => before
      | String c rest' =>
          replaceFrom (before +:+ String c EmptyString) rest' searchString replaceValue
      end.
Proof. destruct rest; reflexivity. Qed.

(** [replace] on a text whose first occurrence of the pattern follows
    [before]: no occurrence starts inside [before]. *)
Lemma replaceFrom_first (passed before body last after replaceValue : string) (z : ascii) :
  last = String z "" ->
  Js.hasUnit "$" replaceValue = false ->
  Js.includes (before +:+ body) (body +:+ last) = false ->
  replaceFrom passed (before +:+ (body +:+ last) +:+ after) (body +:+ last) replaceValue
  = passed +:+ before +:+ replaceValue +:+ after.
Proof.
  intros -> Hplain. revert passed.
  induction before as [|c before IH]; intros passed Hfirst.
  - change ("" +:+ (body +:+ String z "") +:+ after)
      with ((body +:+ String z "") +:+ after).
    rewrite replaceFrom_unfold, startsWith_append, dropUnits_app.
    rewrite getSubstitution_plain by exact Hplain.
    reflexivity.
  - change (String c before +:+ (body +:+ String z "") +:+ after)
      with (String c (before +:+ (body +:+ String z "") +:+ after)).
    change (String c before +:+ body) with (String c (before +:+ body)) in Hfirst.
    simpl in Hfirst.
    destruct (Js.startsWith (String c (before +:+ body)) (body +:+ String z ""))
      eqn:Hshort; [discriminate|].
    assert (Hlong : Js.startsWith
                      (String c (before +:+ (body +:+ String z "") +:+ after))
                      (body +:+ String z "") = false).
    { destruct (Js.startsWith (String c (before +:+ (body +:+ String z "") +:+ after))
                  (body +:+ String z "")) eqn:Hstart; [|reflexivity].
      assert (Hsplit : String c (before +:+ (body +:+ String z "") +:+ after)
                       = String c (before +:+ body) +:+ (String z "" +:+ after)).
      { change (String c (before +:+ body) +:+ (String z "" +:+ after))
          with (String c ((before +:+ body) +:+ (String z "" +:+ after))).
        f_equal. now rewrite !ClassifierFacts.append_assoc. }
      rewrite Hsplit in Hstart. apply startsWith_long in Hstart; [congruence|].
      rewrite length_append. simpl. rewrite length_append. simpl. lia. }
    rewrite replaceFrom_unfold, Hlong.
    rewrite (IH (passed +:+ String c "") Hfirst).
    rewrite !ClassifierFacts.append_assoc. reflexivity.
Qed.

End RendererFacts.

(** X19.  With [openPath] available and no dollar sign in HOME, a path
    that starts with a tilde is opened with that tilde replaced by HOME
    (by nothing when HOME is unset); whatever follows the tilde, further
    tildes and %USERPROFILE% included, is kept as it is. *)
Theorem handleOpenConfig_tilde (env : Renderer.Env) (rest : string) :
  Renderer.hasOpenPath env = true ->
  Js.hasUnit "$" (orElse (Renderer.env_HOME env) "") = false ->
  Renderer.handleOpenConfig env ("~" +:+ rest)
  = Some (orElse (Renderer.env_HOME env) "" +:+ rest).
Proof.
  intros Hopen Hplain. unfold Renderer.handleOpenConfig. rewrite Hopen.
  change ("~" +:+ rest) with (String "~" rest).
  change (Js.startsWith (String "~" rest) "~") with true. cbv iota.
  unfold Renderer.replace, Renderer.replaceFrom.
  change (Js.startsWith (String "~" rest) "~") with true. cbv iota zeta.
  change (Renderer.dropUnits (String.length "~") (String "~" rest)) with rest.
  now rewrite RendererFacts.getSubstitution_plain.
Qed.

Lemma handleOpenConfig_tilde_witness :
  Renderer.handleOpenConfig Renderer.desktop "~/.codex/%USERPROFILE%/~"
  = Some "/home/ada/.codex/%USERPROFILE%/~".
Proof.
  apply (handleOpenConfig_tilde Renderer.desktop "/.codex/%USERPROFILE%/~");
    reflexivity.
Defined.

(** X20.  With [openPath] available and no dollar sign in USERPROFILE, a
    path that does not start with a tilde has its first %USERPROFILE%
    replaced by USERPROFILE (by nothing when it is unset), and only the
    first: the text after it is kept as it is. *)
Theorem handleOpenConfig_userprofile (env : Renderer.Env) (before after : string) :
  Renderer.hasOpenPath env = true ->
  Js.hasUnit "$" (orElse (Renderer.env_USERPROFILE env) "") = false ->
  Js.startsWith (before +:+ "%USERPROFILE%" +:+ after) "~" = false ->
  Js.includes (before +:+ "%USERPROFILE") "%USERPROFILE%" = false ->
  Renderer.handleOpenConfig env (before +:+ "%USERPROFILE%" +:+ after)
  = Some (before +:+ orElse (Renderer.env_USERPROFILE env) "" +:+ after).
Proof.
  intros Hopen Hplain Htilde Hfirst. unfold Renderer.handleOpenConfig.
  rewrite Hopen, Htilde, ClassifierFacts.includes_middle.
  unfold Renderer.replace. f_equal.
  exact (RendererFacts.replaceFrom_first "" before "%USERPROFILE" "%" after
           (orElse (Renderer.env_USERPROFILE env) "") "%" eq_refl Hplain Hfirst).
Qed.

Lemma handleOpenConfig_userprofile_witness :
  Renderer.handleOpenConfig Renderer.desktop "x%USERPROFILE%\.codex\%USERPROFILE%"
  = Some "xC:\Users\ada\.codex\%USERPROFILE%".
Proof.
  apply (handleOpenConfig_userprofile Renderer.desktop "x" "\.codex\%USERPROFILE%");
    reflexivity.
Defined.

(** ** [findAllInstallations] against [scanDirectory] *)

(** X21.  Off Windows, the result of [findAllInstallations] holds exactly
    the lookup's paths and the paths of the records that [scanDirectory]
    returns, for some search-path directory, under the tool's name in
    lower case. *)
Theorem findAllInstallations_agrees_with_scan (h : Host) (toolName : string)
    (out : list string) (p : string) :
  isWindows h = false ->
  findAllInstallations h toolName = Return out ->
  (p ∈ out <->
   p ∈ getAllToolPaths h toolName
   \/ exists dir executables r,
        dir ∈ parsePath h
        /\ scanDirectory h dir = Return executables
        /\ r ∈ executables
        /\ ExecutableInfo.name r = Js.toLowerCase toolName
        /\ ExecutableInfo.path r = p).
Proof.
  intros Hposix. rewrite FinderFacts.findAllInstallations_value. intros [= <-].
  rewrite FinderFacts.elem_of_firstUnique, elem_of_app.
  assert (Hname : forall file, namesTool h toolName file = true <->
                    Js.toLowerCase file = Js.toLowerCase toolName).
  { intros file. unfold namesTool. rewrite Hposix. apply String.eqb_eq. }
  split.
  - intros [Hp|Hp]; [now left | right].
    apply list_elem_of_In, in_concat in Hp as (hits & Hhits & Hp).
    apply in_map_iff in Hhits as (dir & <- & Hdir).
    apply list_elem_of_In, FinderFacts.elem_of_sweepHits in Hp
      as (files & file & [[] Haccess] & Hread & Hfile & Hnames & _ & Hexec & ->).
    exists dir, (map (recordOf h dir)
                   (List.filter (fun f => executableAt h (path_join h dir f)) files)),
           (recordOf h dir file).
    split; [now apply list_elem_of_In|].
    split; [apply (scanDirectory_listing h dir files Haccess Hread)|].
    split; [apply ScanFacts.elem_of_records; eauto|].
    split; [|reflexivity].
    unfold recordOf. rewrite Hposix. now apply Hname.
  - intros [Hp|(dir & executables & r & Hdir & Hscan & Hr & Hrname & <-)]; [now left|].
    destruct (decide (ExecutableInfo.path r ∈ getAllToolPaths h toolName))
      as [Hin|Hfresh]; [now left | right].
    destruct (ScanFacts.scanDirectory_cases h dir executables Hscan)
      as [->|(files & Hread & ->)]; [now apply elem_of_nil in Hr|].
    apply ScanFacts.elem_of_records in Hr as (file & Hfile & Hexec & ->).
    destruct (fs_access h dir) as [u|e] eqn:Haccess.
    2:{ unfold scanDirectory in Hscan. rewrite Haccess in Hscan.
        injection Hscan as Hscan. symmetry in Hscan.
        apply map_eq_nil in Hscan.
        assert (Hmember : In file (List.filter
                  (fun f => executableAt h (path_join h dir f)) files)).
        { apply filter_In. split; [now apply list_elem_of_In|].
          now apply ScanFacts.executableAt_true. }
        rewrite Hscan in Hmember. destruct Hmember. }
    apply list_elem_of_In, in_concat.
    exists (sweepHits h toolName (getAllToolPaths h toolName) dir). split.
    + apply in_map. now apply list_elem_of_In.
    + apply list_elem_of_In, FinderFacts.elem_of_sweepHits.
      exists files, file. split; [eauto|]. split; [exact Hread|].
      split; [exact Hfile|]. split.
      * apply Hname. unfold recordOf in Hrname. now rewrite Hposix in Hrname.
      * split; [exact Hfresh|]. split; [exact Hexec | reflexivity].
Qed.

Lemma findAllInstallations_agrees_with_scan_witness :
  "/opt/tools/git" ∈ ["/usr/bin/git"; "/opt/tools/git"] <->
  "/opt/tools/git" ∈ getAllToolPaths Sample.linux "GIT"
  \/ exists dir executables r,
       dir ∈ parsePath Sample.linux
       /\ scanDirectory Sample.linux dir = Return executables
       /\ r ∈ executables
       /\ ExecutableInfo.name r = Js.toLowerCase "GIT"
       /\ ExecutableInfo.path r = "/opt/tools/git".
Proof.
  apply (findAllInstallations_agrees_with_scan Sample.linux "GIT").
  - reflexivity.
  - vm_compute. reflexivity.
Defined.

(** X22.  The directory sweep reads the tool's name only up to case: two
    spellings of a name that the lookup answers alike give the same
    result. *)
Theorem findAllInstallations_name_case (h : Host) (toolName toolName' : string) :
  Js.toLowerCase toolName = Js.toLowerCase toolName' ->
  getAllToolPaths h toolName = getAllToolPaths h toolName' ->
  findAllInstallations h toolName = findAllInstallations h toolName'.
Proof.
  intros Hcase Hlookup. rewrite !FinderFacts.findAllInstallations_value.
  rewrite <- Hlookup. do 4 f_equal.
  apply map_ext. intros dir. unfold sweepHits, namesTool. now rewrite Hcase.
Qed.

Lemma findAllInstallations_name_case_witness :
  findAllInstallations Sample.linux "GIT" = findAllInstallations Sample.linux "Git".
Proof.
  apply (findAllInstallations_name_case Sample.linux "GIT" "Git"); reflexivity.
Defined.
